(** * DINE_KOT_SYNC: launcher and API handlers

    A shallow embedding of [SyncService.py] (environment overlay and bind
    address selection) and of [sync/views.py] (pairing, login, token
    validation and the read-only query endpoints), with the properties the
    specification states about them.

    Conventions.
    - Python [str] is [string]; a character is a code point below 256.
    - [os.environ] and every [dict] keyed by strings whose order does not
      matter is a [gmap string _].
    - A call that can raise returns an [outcome]; [try]/[except] is a
      [match] on it.
    - The operating system, the network stack and the database driver are
      collaborators: they enter as oracles (records of what they answer),
      and every property holds whatever they answer.  The token library
      enters as an interface with the two laws the handlers rely on; an
      instance of it is given below.
    - The process environment is the one of CPython on POSIX: names are
      kept as they are written, and a name or a value the system cannot
      hold is refused with an exception.
    - Time is a number of seconds since the epoch. *)

From Stdlib Require Import ZArith String Ascii List Bool Lia.
From stdpp Require Import base option list gmap strings.

Set Warnings "-register-all,-clear-no-such-hyp".

Local Open Scope string_scope.
Local Open Scope Z_scope.
Local Open Scope list_scope.

(** ** Python primitives *)

Module Py.

(** Exceptions, by the classes the handlers distinguish. *)
Inductive exn_class :=
  | ExpiredSignatureError
  | PyJWTError            (* any other subclass of jwt.PyJWTError *)
  | KeyError
  | IndexError
  | ValueError
  | AttributeError
  | OSError
  | TypeError
  | NotImplementedError
  | OtherException.

Record exn := Exn { exn_cls : exn_class; exn_str : string }.

Inductive outcome (A : Type) :=
  | Returned (a : A)
  | Raised (e : exn).
Arguments Returned {A} a.
Arguments Raised {A} e.

(** Sequencing: the first exception raised propagates. *)
#[global] Instance outcome_ret : MRet outcome := fun A a => Returned a.
#[global] Instance outcome_bind : MBind outcome := fun A B k m =>
  match m with
  | Returned a => k a
  | Raised e => Raised e
  end.

(** [str.isspace] on one character, for code points below 256. *)
Definition isspace (c : ascii) : bool :=
  let n := N_of_ascii c in
  (((9 <=? n) && (n <=? 13)) || ((28 <=? n) && (n <=? 32))
   || (n =? 133) || (n =? 160))%N.

Fixpoint lstrip (s : string) : string :=
  match s with
  | EmptyString => EmptyString
  | String c s' => if isspace c then lstrip s' else s
  end.

Fixpoint rstrip (s : string) : string :=
  match s with
  | EmptyString => EmptyString
  | String c s' =>
      match rstrip s' with
      | EmptyString => if isspace c then EmptyString else String c EmptyString
      | r => String c r
      end
  end.

(** [s.strip()] *)
Definition strip (s : string) : string := rstrip (lstrip s).

(** [bool(s)] for a string. *)
Definition truthy (s : string) : bool :=
  match s with EmptyString => false | _ => true end.

(** [s.startswith(p)] *)
Definition startswith (p s : string) : bool := String.prefix p s.

(** [c in s] for a one-character needle. *)
Fixpoint contains (c : ascii) (s : string) : bool :=
  match s with
  | EmptyString => false
  | String d s' => if Ascii.eqb d c then true else contains c s'
  end.

(** [s.partition(c)] without the separator: what precedes the first [c]
    and, when there is one, what follows it. *)
Fixpoint cut (c : ascii) (s : string) : string * option string :=
  match s with
  | EmptyString => (EmptyString, None)
  | String d s' =>
      if Ascii.eqb d c then (EmptyString, Some s')
      else let '(a, b) := cut c s' in (String d a, b)
  end.

(** [s.split(c, 1)]: one or two pieces. *)
Definition split1 (c : ascii) (s : string) : list string :=
  match cut c s with
  | (a, None) => [a]
  | (a, Some b) => [a; b]
  end.

(** [l[i]] on a list or tuple, for [i >= 0]. *)
Definition index {A} (l : list A) (i : nat) : outcome A :=
  match l !! i with
  | Some x => Returned x
  | None => Raised (Exn IndexError "list index out of range")
  end.

(** [needle in s] for strings. *)
Fixpoint is_infix (needle s : string) : bool :=
  String.prefix needle s
  || match s with
     | EmptyString => false
     | String _ s' => is_infix needle s'
     end.

End Py.

Import Py.

(** ** SyncService.py *)

Module SyncService.

(** [_strip_comment(s)] for a string argument. *)
Definition _strip_comment (s : string) : string :=
  strip (fst (cut "#" s)).

(** Text-mode reading: every ["\r\n"] and every lone ["\r"] becomes
    ["\n"]. *)
Fixpoint universal_newlines (s : string) : string :=
  match s with
  | EmptyString => EmptyString
  | String c s' =>
      if Ascii.eqb c "013" then
        match s' with
        | String d s'' =>
            if Ascii.eqb d "010" then String "010" (universal_newlines s'')
            else String "010" (universal_newlines s')
        | EmptyString => String "010" EmptyString
        end
      else String c (universal_newlines s')
  end.

(** [for line in f]: the lines of a text, each with its terminator. *)
Fixpoint lines_from (cur : string) (s : string) : list string :=
  match s with
  | EmptyString =>
      match cur with EmptyString => [] | _ => [String.rev cur] end
  | String c s' =>
      if Ascii.eqb c "010" then String.rev (String c cur) :: lines_from EmptyString s'
      else lines_from (String c cur) s'
  end.

Definition readlines (content : string) : list string :=
  lines_from EmptyString (universal_newlines content).

(** The state [load_env] works on: [os.environ] and its local [loaded]. *)
Record env_state := EnvState {
  environ : gmap string string;
  loaded : gmap string string
}.

(** [os.environ[k] = v].  A NUL character in the name or in the value is
    refused first, then a name that holds ['='], then the empty name, which
    the system refuses; any other pair is written. *)
Definition setenv (env : gmap string string) (k v : string)
  : outcome (gmap string string) :=
  if contains "000" k || contains "000" v
  then Raised (Exn ValueError "embedded null byte")
  else if contains "=" k
  then Raised (Exn ValueError "illegal environment variable name")
  else if negb (truthy k)
  then Raised (Exn OSError "[Errno 22] Invalid argument")
  else Returned (<[k := v]> env).

(** One iteration of the loop over the lines of the file.  [k, v =
    line.split("=", 1)] raises [ValueError] unless there are two pieces;
    the environment is written before the loaded set. *)
Definition load_env_line (st : env_state) (line : string) : outcome env_state :=
  let line := strip line in
  if negb (truthy line) || startswith "#" line || negb (contains "=" line)
  then Returned st
  else
    match split1 "=" line with
    | [k; v] =>
        let k := strip k in
        let v := _strip_comment (strip v) in
        env ← setenv (environ st) k v;
        Returned {| environ := env; loaded := <[k := v]> (loaded st) |}
    | _ => Raised (Exn ValueError "not enough values to unpack (expected 2, got 1)")
    end.

Fixpoint load_env_lines (st : env_state) (ls : list string) : outcome env_state :=
  match ls with
  | [] => Returned st
  | line :: rest => st' ← load_env_line st line; load_env_lines st' rest
  end.

(** [load_env(exe_dir, filename)]: [file] is the content of the file at
    that path, [None] when [os.path.isfile] says there is none. *)
Definition load_env (env : gmap string string) (file : option string)
  : outcome env_state :=
  let st := {| environ := env; loaded := ∅ |} in
  match file with
  | None => Returned st
  | Some content => load_env_lines st (readlines content)
  end.

(** What the launcher asks of the network stack. *)
Record network := Network {
  (* the local address of a datagram socket connected to 8.8.8.8:80 *)
  outbound : outcome string;
  (* the addresses of getaddrinfo(gethostname(), None, AF_INET) *)
  host_addresses : outcome (list string);
  (* socket(), bind((ip, port)), close() in a row *)
  probe : string -> Z -> outcome unit
}.

(** The de-duplication loop of [ipv4_candidates]. *)
Fixpoint uniq_loop (seen : gset string) (uniq : list string) (cands : list string)
  : list string :=
  match cands with
  | [] => uniq
  | ip :: rest =>
      if decide (ip ∈ seen) then uniq_loop seen uniq rest
      else uniq_loop ({[ ip ]} ∪ seen) (uniq ++ [ip]) rest
  end.

(** The addresses [ipv4_candidates] gathers before it removes the
    repeats: the outbound address, then those of the host name that are
    neither empty nor the loopback address. *)
Definition gathered (net : network) : list string :=
  let cands : list string := [] in
  let cands :=
    match outbound net with
    | Returned ip => cands ++ [ip]
    | Raised _ => cands
    end in
  match host_addresses net with
  | Returned infos =>
      cands ++ filter (fun ip => truthy ip && negb (String.eqb ip "127.0.0.1") = true) infos
  | Raised _ => cands
  end.

Definition ipv4_candidates (net : network) : list string :=
  uniq_loop ∅ [] (gathered net).

(** The probing loop of [select_bind_ip]. *)
Fixpoint select_loop (net : network) (port : Z) (tried : list string)
  (cands : list string) : string * list string :=
  match cands with
  | [] => ("0.0.0.0", tried ++ ["0.0.0.0"])
  | ip :: rest =>
      let tried := tried ++ [ip] in
      match probe net ip port with
      | Returned _ => (ip, tried)
      | Raised _ => select_loop net port tried rest
      end
  end.

Definition select_bind_ip (net : network) (port : Z) : string * list string :=
  select_loop net port [] (ipv4_candidates net).

End SyncService.

(** ** sync/views.py *)

Module Views.

(** Python values as they travel through the handlers: decoded JSON,
    columns of a database row, and the bodies of JSON responses.  A [dict]
    is kept as the list of its items, in insertion order, so that a response
    body shows the order of the source's dict literal.  [PBytes] is a
    [bytes] value, as the driver gives for a binary column; decoded JSON
    holds none. *)
Inductive pyval :=
  | PNone
  | PBool (b : bool)
  | PInt (z : Z)
  | PStr (s : string)
  | PList (l : list pyval)
  | PDict (items : list (string * pyval))
  | PBytes (b : string).

(** [bool(v)] *)
Definition py_truthy (v : pyval) : bool :=
  match v with
  | PNone => false
  | PBool b => b
  | PInt z => negb (z =? 0)
  | PStr s => truthy s
  | PList l => match l with [] => false | _ => true end
  | PDict d => match d with [] => false | _ => true end
  | PBytes b => truthy b
  end.

(** [v or ""] *)
Definition or_empty (v : pyval) : pyval :=
  if py_truthy v then v else PStr "".

(** [type(v).__name__] *)
Definition type_name (v : pyval) : string :=
  match v with
  | PNone => "NoneType"
  | PBool _ => "bool"
  | PInt _ => "int"
  | PStr _ => "str"
  | PList _ => "list"
  | PDict _ => "dict"
  | PBytes _ => "bytes"
  end.

(** The [AttributeError] of [v.name] when [v] has no such attribute. *)
Definition no_attribute (v : pyval) (name : string) : exn :=
  Exn AttributeError
      ("'" +:+ type_name v +:+ "' object has no attribute '" +:+ name +:+ "'").

(** [v.strip()]: only a [str] has the method. *)
Definition py_strip (v : pyval) : outcome string :=
  match v with
  | PStr s => Returned (strip s)
  | _ => Raised (no_attribute v "strip")
  end.

Fixpoint assoc (k : string) (items : list (string * pyval)) : option pyval :=
  match items with
  | [] => None
  | (k', v) :: rest => if String.eqb k' k then Some v else assoc k rest
  end.

(** [data.get(k)]: only a [dict] has the method; a missing key gives
    [None]. *)
Definition py_get (data : pyval) (k : string) : outcome pyval :=
  match data with
  | PDict items => Returned (default PNone (assoc k items))
  | _ => Raised (no_attribute data "get")
  end.

(** [v != s] for a [str] [s]: a value of another type is never equal to
    it, and two strings are equal when they have the same characters. *)
Definition py_ne_str (v : pyval) (s : string) : bool :=
  match v with
  | PStr t => negb (String.eqb t s)
  | _ => true
  end.

(** The body of a request, by what [json.loads(request.body or b"{}")]
    makes of it: no byte at all, bytes that [json.loads] rejects, or bytes
    that decode to a value. *)
Inductive http_body :=
  | EmptyBody
  | NotJson
  | Json (v : pyval).

Definition is_json (b : http_body) : bool :=
  match b with Json _ => true | _ => false end.

(** [json.loads(request.body or b"{}")] *)
Definition loads_body (b : http_body) : outcome pyval :=
  match b with
  | EmptyBody => Returned (PDict [])
  | NotJson => Raised (Exn ValueError "Expecting value")
  | Json v => Returned v
  end.

Record request := Request {
  method : string;
  authorization : option string;       (* the Authorization header *)
  body : http_body;
  GET : list (string * string);        (* the query string, in order *)
  userid : option string               (* set by jwt_required *)
}.

Definition set_userid (req : request) (u : string) : request :=
  {| method := method req; authorization := authorization req;
     body := body req; GET := GET req; userid := Some u |}.

(** [request.GET.get(k)]: the last value given for [k]. *)
Definition querydict_get (q : list (string * string)) (k : string) : option string :=
  last (omap (fun kv => if String.eqb (fst kv) k then Some (snd kv) else None) q).

Record response := Response {
  status_code : Z;
  content : pyval
}.

(** The response that [JsonResponse(d)] or [JsonResponse(d, status=s)]
    makes, when it makes one. *)
Definition JsonResponse (d : list (string * pyval)) (status : Z) : response :=
  {| status_code := status; content := PDict d |}.

Definition detail (msg : string) (status : Z) : response :=
  JsonResponse [("detail", PStr msg)] status.

(** What the encoder of the responses can write: any value that holds no
    [bytes], at any depth. *)
Fixpoint encodable (v : pyval) : bool :=
  match v with
  | PBytes _ => false
  | PList l => forallb encodable l
  | PDict items => forallb (fun kv => match kv with (_, x) => encodable x end) items
  | _ => true
  end.

(** The [TypeError] of the encoder. *)
Definition not_serializable : exn :=
  Exn TypeError "Object of type bytes is not JSON serializable".

(** The call [JsonResponse(d)] or [JsonResponse(d, status=s)]: [d] is
    serialized at once, and a value the encoder cannot write makes the call
    raise. *)
Definition json_response (d : list (string * pyval)) (status : Z)
  : outcome response :=
  if encodable (PDict d) then Returned (JsonResponse d status)
  else Raised not_serializable.

(** *** Configuration read when the module is imported *)

Definition getenv (env : gmap string string) (k d : string) : string :=
  default d (env !! k).

Definition PAIR_PASSWORD (env : gmap string string) : string :=
  getenv env "PAIR_PASSWORD" "IMC-MOBILE".

(** [os.getenv("JWT_SECRET") or "dev-secret-change-me"] *)
Definition JWT_SECRET (env : gmap string string) : string :=
  match env !! "JWT_SECRET" with
  | Some s => if truthy s then s else "dev-secret-change-me"
  | None => "dev-secret-change-me"
  end.

Definition JWT_ALGO (env : gmap string string) : string :=
  getenv env "JWT_ALGO" "HS256".

(** *** The token library *)

(** The claims the handlers write and read. *)
Record claims := Claims {
  sub : option string;
  exp : option Z               (* seconds since the epoch *)
}.

(** A token taken apart: the algorithm its header names, its claims, its
    signature. *)
Record jws := Jws {
  alg : string;
  payload : claims;
  signature : string
}.

(** What the handlers rely on from the token library: a keyed signature,
    a compact serialization and its parser, and the exception with which
    the library refuses to work with a key under an algorithm, when it does
    (an algorithm it does not implement, a key the algorithm cannot use):
    signing raises it, and verifying turns it into an invalid token.  The
    parser reads back what the serializer wrote, and rejects the empty
    string. *)
Class JwtLib := {
  sign : string -> string -> claims -> string;     (* key, algorithm, claims *)
  refuses : string -> string -> option exn;        (* key, algorithm *)
  compact : jws -> string;
  parse : string -> option jws;
  parse_compact : forall j, parse (compact j) = Some j;
  parse_empty : parse "" = None
}.

Section WithJwt.

Context `{JwtLib}.

(** [jwt.encode(payload, key, algorithm=algo)] *)
Definition jwt_encode (p : claims) (key algo : string) : outcome string :=
  match refuses key algo with
  | Some ex => Raised ex
  | None =>
      Returned (compact {| alg := algo; payload := p; signature := sign key algo p |})
  end.

(** The subclass of [PyJWTError] that verifying raises where signing
    raises [ex]: an algorithm that is not implemented is named as such, and
    a key that cannot be used keeps its message. *)
Definition refused_token (ex : exn) : exn :=
  match exn_cls ex with
  | NotImplementedError => Exn PyJWTError "Algorithm not supported"
  | _ => Exn PyJWTError (exn_str ex)
  end.

(** [jwt.decode(token, key, algorithms=algos)] at time [now]: the token is
    parsed, its algorithm must be one of [algos] and one the library works
    with under [key], its signature must be the one [key] gives, and an
    [exp] claim must lie in the future. *)
Definition jwt_decode (now : Z) (token key : string) (algos : list string)
  : outcome claims :=
  match parse token with
  | None => Raised (Exn PyJWTError "Not enough segments")
  | Some j =>
      if negb (existsb (String.eqb (alg j)) algos)
      then Raised (Exn PyJWTError "The specified alg value is not allowed")
      else
        match refuses key (alg j) with
        | Some ex => Raised (refused_token ex)
        | None =>
            if negb (String.eqb (signature j) (sign key (alg j) (payload j)))
            then Raised (Exn PyJWTError "Signature verification failed")
            else
              match exp (payload j) with
              | Some e =>
                  if e <=? now
                  then Raised (Exn ExpiredSignatureError "Signature has expired")
                  else Returned (payload j)
              | None => Returned (payload j)
              end
        end
  end.

(** [payload["sub"]] *)
Definition payload_sub (p : claims) : outcome string :=
  match sub p with
  | Some s => Returned s
  | None => Raised (Exn KeyError "'sub'")
  end.

(** *** Helpers *)

Definition _extract_token (req : request) : outcome (option string) :=
  let hdr := default "" (authorization req) in
  if negb (startswith "Bearer " hdr) then Returned None
  else t ← index (split1 " " hdr) 1; Returned (Some t).

Definition _decode (env : gmap string string) (now : Z) (token : string)
  : outcome claims :=
  jwt_decode now token (JWT_SECRET env) [JWT_ALGO env].

(** *** The database *)

(** The fixed statements of the handlers. *)
Inductive sql :=
  | SelectUser               (* ... FROM acc_users WHERE id = ? AND pass = ? *)
  | SelectItem               (* ... FROM tb_item_master ... WHERE i.item_code = ? *)
  | SelectItems
  | SelectTable              (* ... FROM dine_tables WHERE tableno = ? *)
  | SelectTables
  | SelectSetting            (* ... FROM acc_userssettings WHERE uid = ? *)
  | SelectSettings
  | SelectCategory           (* ... FROM dine_catagory WHERE catagorycode = ? *)
  | SelectCategories.

Definition row := list pyval.

(** [r[i]] on a row, which the driver gives as a tuple, for [i >= 0]. *)
Definition column (r : row) (i : nat) : outcome pyval :=
  match r !! i with
  | Some x => Returned x
  | None => Raised (Exn IndexError "tuple index out of range")
  end.

(** The driver: [get_connection()] with [conn.cursor()], and
    [cur.execute(statement, params)] followed by the fetch. *)
Record database := Database {
  connect : outcome unit;
  execute : sql -> list string -> outcome (list row)
}.

(** What a handler did to the database. *)
Inductive db_event :=
  | Connected
  | Executed (q : sql) (params : list string).

(** What a handler gives back: a response or an exception that leaves
    it, and what it did to the database on the way. *)
Definition reply := (outcome response * list db_event)%type.

Definition no_db (r : outcome response) : reply := (r, []).

(** Connect, run one statement, fetch. *)
Definition run_query (db : database) (q : sql) (params : list string)
  : outcome (list row) * list db_event :=
  match connect db with
  | Raised e => (Raised e, [Connected])
  | Returned _ => (execute db q params, [Connected; Executed q params])
  end.

(** *** Decorators *)

Definition require_http_methods (allowed : list string)
  (view : request -> reply) (req : request) : reply :=
  if existsb (String.eqb (method req)) allowed then view req
  else no_db (Returned {| status_code := 405; content := PNone |}).

Definition jwt_required (env : gmap string string) (now : Z)
  (view_func : request -> reply) (req : request) : reply :=
  match _extract_token req with
  | Raised e => no_db (Raised e)
  | Returned token =>
      if negb (truthy (default "" token))
      then no_db (json_response [("detail", PStr "Token missing")] 401)
      else
        match p ← _decode env now (default "" token); payload_sub p with
        | Returned u => view_func (set_userid req u)
        | Raised e =>
            match exn_cls e with
            | ExpiredSignatureError => no_db (json_response [("detail", PStr "Token expired")] 401)
            | PyJWTError => no_db (json_response [("detail", PStr "Invalid token")] 401)
            | _ => no_db (Raised e)
            end
        end
  end.

(** *** Endpoints *)

(** What [pair_check] asks of the operating system. *)
Record host := Host {
  exe_exists : bool;                        (* os.path.exists(exe_path) *)
  process_names : list (option string);     (* proc.info["name"] of each process *)
  popen : outcome unit                      (* subprocess.Popen([exe_path], ...) *)
}.

Definition pair_check_view (env : gmap string string) (os : host)
  (req : request) : reply :=
  match loads_body (body req) with
  | Raised _ => no_db (json_response [("detail", PStr "Invalid JSON")] 400)
  | Returned data =>
      no_db (
        pw ← py_get data "password";
        if py_ne_str pw (PAIR_PASSWORD env)
        then json_response [("detail", PStr "Invalid password")] 401
        else if negb (exe_exists os)
        then json_response [("detail", PStr "SyncService.exe not found")] 404
        else if existsb (fun name =>
                   match name with
                   | Some n => truthy n && is_infix "SyncService.exe" n
                   | None => false
                   end) (process_names os)
        then json_response
               [("status", PStr "success");
                ("message", PStr "SyncService already running");
                ("pair_successful", PBool true)] 200
        else
          match popen os with
          | Returned _ =>
              json_response
                [("status", PStr "success");
                 ("message", PStr "SyncService launched successfully");
                 ("pair_successful", PBool true)] 200
          | Raised e =>
              json_response
                [("detail", PStr ("Failed to start sync service: " +:+ exn_str e))] 500
          end)
  end.

Definition pair_check (env : gmap string string) (os : host) : request -> reply :=
  require_http_methods ["POST"] (pair_check_view env os).

(** Seven days, in seconds. *)
Definition seven_days : Z := 7 * 86400.

(** The [try] block at the head of [login]: decode the body and read the
    two fields, trimmed. *)
Definition read_credentials (b : http_body) : outcome (string * string) :=
  data ← loads_body b;
  u ← py_get data "userid";
  userid ← py_strip (or_empty u);
  p ← py_get data "password";
  password ← py_strip (or_empty p);
  Returned (userid, password).

Definition login_view (env : gmap string string) (db : database) (now : Z)
  (req : request) : reply :=
  match read_credentials (body req) with
  | Raised _ => no_db (json_response [("detail", PStr "Invalid JSON")] 400)
  | Returned (userid, password) =>
      if negb (truthy userid) || negb (truthy password)
      then no_db (json_response [("detail", PStr "userid & password required")] 400)
      else
        match run_query db SelectUser [userid; password] with
        | (Raised dbx, tr) =>
            (json_response [("detail", PStr ("DB error: " +:+ exn_str dbx))] 500, tr)
        | (Returned rows, tr) =>
            (* row = cur.fetchone() *)
            match head rows with
            | Some (user_id :: _) =>
                (* past the try block: what is raised from here on leaves login *)
                let payload := {| sub := Some userid; exp := Some (now + seven_days) |} in
                (token ← jwt_encode payload (JWT_SECRET env) (JWT_ALGO env);
                 json_response
                   [("status", PStr "success");
                    ("message", PStr "Login successful");
                    ("user_id", user_id);
                    ("token", PStr token)] 200, tr)
            | _ => (json_response [("detail", PStr "Invalid credentials")] 401, tr)
            end
        end
  end.

Definition login (env : gmap string string) (db : database) (now : Z)
  : request -> reply :=
  require_http_methods ["POST"] (login_view env db now).

Definition verify_token_view (req : request) : reply :=
  no_db (
    match userid req with
    | Some u => json_response [("status", PStr "success"); ("userid", PStr u)] 200
    | None => Raised (Exn AttributeError "'WSGIRequest' object has no attribute 'userid'")
    end).

Definition verify_token (env : gmap string string) (now : Z) : request -> reply :=
  jwt_required env now (require_http_methods ["GET"] verify_token_view).

(** The body the four query endpoints share: read one optional key from
    the query string, run the statement with the key when the key is
    truthy and the statement without it otherwise, turn every row into a
    record, and answer with the records; whatever is raised on the way
    becomes a 500 answer. *)
Definition query_view (key : string) (q_one q_all : sql)
  (record_of : row -> outcome pyval) (collection : string)
  (db : database) (req : request) : reply :=
  let k := querydict_get (GET req) key in
  let '(fetched, tr) :=
    if truthy (default "" k)
    then run_query db q_one [default "" k]
    else run_query db q_all [] in
  match
    rows ← fetched;
    data ← mapM record_of rows;
    json_response
      [("status", PStr "success");
       ("count", PInt (Z.of_nat (length data)));
       (collection, PList data)] 200
  with
  | Returned r => (Returned r, tr)
  | Raised e =>
      (json_response [("status", PStr "error"); ("detail", PStr (exn_str e))] 500, tr)
  end.

Definition item_record (r : row) : outcome pyval :=
  c0 ← column r 0; c1 ← column r 1; c2 ← column r 2; c3 ← column r 3;
  c4 ← column r 4; c5 ← column r 5; c6 ← column r 6; c7 ← column r 7;
  c8 ← column r 8; c9 ← column r 9; c10 ← column r 10;
  Returned (PDict
    [("item_code", c0); ("item_name", c1); ("rate", c2); ("rate1", c3);
     ("rate2", c4); ("kitchen", c5); ("activity", c6); ("image", c7);
     ("category", c8); ("taxper", c9); ("longname", c10)]).

Definition table_record (r : row) : outcome pyval :=
  c0 ← column r 0; c1 ← column r 1; c2 ← column r 2;
  Returned (PDict [("tableno", c0); ("description", c1); ("section", c2)]).

Definition setting_record (r : row) : outcome pyval :=
  c0 ← column r 0; c1 ← column r 1;
  Returned (PDict [("uid", c0); ("code", c1)]).

Definition category_record (r : row) : outcome pyval :=
  c0 ← column r 0; c1 ← column r 1;
  Returned (PDict [("catagorycode", c0); ("name", c1)]).

Definition get_items_view : database -> request -> reply :=
  query_view "item_code" SelectItem SelectItems item_record "items".

Definition get_dine_tables_view : database -> request -> reply :=
  query_view "tableno" SelectTable SelectTables table_record "tables".

Definition get_user_settings_view : database -> request -> reply :=
  query_view "uid" SelectSetting SelectSettings setting_record "settings".

Definition get_dine_categories_view : database -> request -> reply :=
  query_view "catagorycode" SelectCategory SelectCategories category_record "categories".

(** A view behind [@jwt_required] and [@require_http_methods(["GET"])]. *)
Definition protected_get (env : gmap string string) (now : Z)
  (view : request -> reply) : request -> reply :=
  jwt_required env now (require_http_methods ["GET"] view).

Definition get_items env now db := protected_get env now (get_items_view db).
Definition get_dine_tables env now db := protected_get env now (get_dine_tables_view db).
Definition get_user_settings env now db := protected_get env now (get_user_settings_view db).
Definition get_dine_categories env now db := protected_get env now (get_dine_categories_view db).

End WithJwt.

End Views.

(** * Properties *)

(** ** Strings *)

Module PyFacts.

Lemma cut_found c s :
  contains c s = true ->
  exists a b, cut c s = (a, Some b) /\ s = a +:+ String c b /\ contains c a = false.
Proof.
  induction s as [|d s IH]; simpl; [discriminate|].
  destruct (Ascii.eqb_spec d c) as [->|Hne].
  - intros _. exists EmptyString, s. by simpl.
  - intros Hc. destruct (IH Hc) as (a & b & Hcut & -> & Ha).
    exists (String d a), b. rewrite Hcut. simpl.
    destruct (Ascii.eqb_spec d c); [congruence|]. done.
Qed.

Lemma cut_absent c s :
  contains c s = false -> cut c s = (s, None).
Proof.
  induction s as [|d s IH]; simpl; [done|].
  destruct (Ascii.eqb d c); [discriminate|].
  intros Hc. by rewrite (IH Hc).
Qed.

(** A decomposition at the first occurrence of [c] is the one [cut]
    finds. *)
Lemma cut_unique c a b :
  contains c a = false -> cut c (a +:+ String c b) = (a, Some b).
Proof.
  induction a as [|d a IH]; simpl.
  - intros _. by rewrite Ascii.eqb_refl.
  - destruct (Ascii.eqb d c); [discriminate|].
    intros Ha. by rewrite (IH Ha).
Qed.

Lemma split1_found c s :
  contains c s = true ->
  exists a b, split1 c s = [a; b] /\ s = a +:+ String c b /\ contains c a = false.
Proof.
  intros Hc. destruct (cut_found c s Hc) as (a & b & Hcut & Hs & Ha).
  exists a, b. unfold split1. by rewrite Hcut.
Qed.

Lemma startswith_app p s : startswith p (p +:+ s) = true.
Proof.
  unfold startswith. induction p as [|c p IH]; simpl.
  - by destruct s.
  - destruct (ascii_dec c c); [done|congruence].
Qed.

Lemma startswith_inv p s :
  startswith p s = true -> exists t, s = p +:+ t.
Proof.
  unfold startswith. revert s. induction p as [|c p IH]; intros s.
  - intros _. by exists s.
  - destruct s as [|d s]; simpl; [discriminate|].
    destruct (ascii_dec c d) as [->|]; [|discriminate].
    intros Hp. destruct (IH s Hp) as [t ->]. by exists t.
Qed.

Lemma truthy_true s : truthy s = true <-> s <> "".
Proof. destruct s; simpl; split; congruence. Qed.

Lemma truthy_false s : truthy s = false <-> s = "".
Proof. destruct s; simpl; split; congruence. Qed.

End PyFacts.

(** ** Trimming *)

Module Strip.

Import PyFacts.

Lemma lstrip_head s :
  lstrip s = "" \/ exists c t, lstrip s = String c t /\ isspace c = false.
Proof.
  induction s as [|c s IH]; simpl; [by left|].
  destruct (isspace c) eqn:Hc; [done|]. right. by exists c, s.
Qed.

Lemma lstrip_fixed c t : isspace c = false -> lstrip (String c t) = String c t.
Proof. simpl. by intros ->. Qed.

Lemma rstrip_head c t :
  isspace c = false -> exists r, rstrip (String c t) = String c r.
Proof.
  intros Hc. simpl. destruct (rstrip t) as [|d r].
  - rewrite Hc. by exists "".
  - by exists (String d r).
Qed.

Lemma rstrip_rstrip s : rstrip (rstrip s) = rstrip s.
Proof.
  induction s as [|c s IH]; [done|]. simpl.
  destruct (rstrip s) as [|d r] eqn:Hr.
  - destruct (isspace c) eqn:Hc; [done|]. simpl. by rewrite Hc.
  - change (rstrip (String c (String d r))) with
      (match rstrip (String d r) with
       | "" => if isspace c then "" else String c ""
       | r' => String c r'
       end).
    by rewrite IH.
Qed.

(** Trimming twice is trimming once. *)
Lemma strip_strip s : strip (strip s) = strip s.
Proof.
  unfold strip. destruct (lstrip_head s) as [->|(c & t & -> & Hc)]; [done|].
  destruct (rstrip_head c t Hc) as [r Hr]. rewrite Hr.
  rewrite (lstrip_fixed c r Hc), <- Hr. apply rstrip_rstrip.
Qed.

Lemma contains_lstrip c s : contains c (lstrip s) = true -> contains c s = true.
Proof.
  induction s as [|d s IH]; simpl; [done|].
  destruct (isspace d); [|done].
  intros Hc. rewrite (IH Hc). by destruct (Ascii.eqb d c).
Qed.

Lemma contains_rstrip c s : contains c (rstrip s) = true -> contains c s = true.
Proof.
  induction s as [|d s IH]; simpl; [done|].
  destruct (rstrip s) as [|e r].
  - destruct (isspace d); simpl; [done|].
    destruct (Ascii.eqb d c); [done|discriminate].
  - simpl in *. destruct (Ascii.eqb d c); [done|]. exact IH.
Qed.

(** Trimming brings in no character. *)
Lemma contains_strip c s : contains c (strip s) = true -> contains c s = true.
Proof. intros Hc. by apply contains_lstrip, contains_rstrip. Qed.

Lemma strip_without c s : contains c s = false -> contains c (strip s) = false.
Proof.
  intros Hs. destruct (contains c (strip s)) eqn:Hc; [|done].
  apply contains_strip in Hc. congruence.
Qed.

Lemma cut_fst_without c s : contains c (fst (cut c s)) = false.
Proof.
  induction s as [|d s IH]; simpl; [done|].
  destruct (Ascii.eqb d c) eqn:Hd; [done|].
  destruct (cut c s) as [a b]. simpl in *. by rewrite Hd.
Qed.

End Strip.

(** ** The words of the specification *)

Module Words.

Import PyFacts Strip.

(** The vocabulary of the specification, said without the functions of the
    program: occurrence, prefix, blank characters, trimming, the part of a
    text before a character, and the lines of a text. *)

(** [has c s]: the character [c] occurs in [s]. *)
Definition has (c : ascii) (s : string) : Prop :=
  exists a b, s = a +:+ String c b.

(** [starts p s]: [s] begins with [p]. *)
Definition starts (p s : string) : Prop :=
  exists t, s = p +:+ t.

(** The blank characters below 256: tab, line feed, vertical tab, form
    feed, carriage return, the four separators, the space, next line and
    the no-break space. *)
Definition blank (c : ascii) : Prop :=
  In c ["009"; "010"; "011"; "012"; "013"; "028"; "029"; "030"; "031";
        " "; "133"; "160"]%char.

(** A text of blanks only. *)
Inductive blanks : string -> Prop :=
  | blanks_nil : blanks ""
  | blanks_cons c s : blank c -> blanks s -> blanks (String c s).

(** [trimmed s t]: [t] is [s] without the blanks at its two ends. *)
Definition trimmed (s t : string) : Prop :=
  (exists a b, s = a +:+ t +:+ b /\ blanks a /\ blanks b) /\
  (forall c r, t = String c r -> ~ blank c) /\
  (forall r c, t = r +:+ String c "" -> ~ blank c).

(** [before c s t]: [t] is what precedes the first [c] of [s], the whole
    of [s] when it has none. *)
Definition before (c : ascii) (s t : string) : Prop :=
  ~ has c t /\ (s = t \/ exists b, s = t +:+ String c b).

Lemma app_cons c a b : String c a +:+ b = String c (a +:+ b).
Proof. reflexivity. Qed.

Lemma app_nil_r a : a +:+ "" = a.
Proof. induction a as [|c a IH]; [done|]. by rewrite app_cons, IH. Qed.

Lemma app_assoc a b c : (a +:+ b) +:+ c = a +:+ b +:+ c.
Proof. induction a as [|d a IH]; [done|]. by rewrite !app_cons, IH. Qed.

Lemma app_eq_nil a b : a +:+ b = "" -> a = "" /\ b = "".
Proof. destruct a; [done|]. by rewrite app_cons. Qed.

Lemma has_contains c s : has c s <-> contains c s = true.
Proof.
  split.
  - intros (a & b & ->). induction a as [|d a IH].
    + simpl. by rewrite Ascii.eqb_refl.
    + rewrite app_cons. simpl. rewrite IH. by destruct (Ascii.eqb d c).
  - intros Hc. destruct (cut_found c s Hc) as (a & b & _ & -> & _). by exists a, b.
Qed.

Lemma not_has_contains c s : ~ has c s <-> contains c s = false.
Proof. rewrite has_contains. by destruct (contains c s). Qed.

Lemma starts_startswith p s : starts p s <-> startswith p s = true.
Proof.
  split.
  - intros [t ->]. apply startswith_app.
  - apply startswith_inv.
Qed.

Lemma blank_isspace c : blank c <-> isspace c = true.
Proof.
  unfold blank. split.
  - simpl. intros H. repeat (destruct H as [<-|H]; [reflexivity|]). done.
  - destruct c as [[] [] [] [] [] [] [] []]; vm_compute; intros Hc;
      try discriminate Hc; clear Hc;
      repeat first [left; reflexivity | right].
Qed.

Lemma not_blank_isspace c : ~ blank c <-> isspace c = false.
Proof. rewrite blank_isspace. by destruct (isspace c). Qed.

Lemma lstrip_blanks a x : blanks a -> lstrip (a +:+ x) = lstrip x.
Proof.
  induction 1 as [|c a Hc _ IH]; [done|].
  rewrite app_cons. simpl. apply blank_isspace in Hc. by rewrite Hc.
Qed.

Lemma lstrip_blanks_only b : blanks b -> lstrip b = "".
Proof.
  induction 1 as [|c b Hc _ IH]; [done|]. simpl.
  apply blank_isspace in Hc. by rewrite Hc.
Qed.

Lemma lstrip_split s : exists a, s = a +:+ lstrip s /\ blanks a.
Proof.
  induction s as [|c s (a & Hs & Ha)]; simpl.
  - exists "". split; [done|constructor].
  - destruct (isspace c) eqn:Hc.
    + exists (String c a). rewrite app_cons, <- Hs. split; [done|].
      constructor; [by apply blank_isspace|done].
    + exists "". split; [done|constructor].
Qed.

Lemma rstrip_blanks_only b : blanks b -> rstrip b = "".
Proof.
  induction 1 as [|c b Hc _ IH]; [done|]. simpl. rewrite IH.
  apply blank_isspace in Hc. by rewrite Hc.
Qed.

Lemma rstrip_blanks t b : blanks b -> rstrip (t +:+ b) = rstrip t.
Proof.
  intros Hb. induction t as [|c t IH].
  - by apply rstrip_blanks_only.
  - rewrite app_cons. simpl. by rewrite IH.
Qed.

Lemma rstrip_split s : exists b, s = rstrip s +:+ b /\ blanks b.
Proof.
  induction s as [|c s (b & Hs & Hb)]; simpl.
  - exists "". split; [done|constructor].
  - destruct (rstrip s) as [|d r] eqn:Hr.
    + destruct (isspace c) eqn:Hc.
      * exists (String c b). split; [by rewrite Hs|].
        constructor; [by apply blank_isspace|done].
      * exists b. by rewrite app_cons, <- Hs.
    + exists b. by rewrite app_cons, <- Hs.
Qed.

(** What [rstrip] leaves does not end with a blank. *)
Lemma rstrip_last s r c : rstrip s = r +:+ String c "" -> isspace c = false.
Proof.
  revert r. induction s as [|d s IH]; intros r; simpl.
  - intros Hr. symmetry in Hr. by apply app_eq_nil in Hr as [_ ?].
  - destruct (rstrip s) as [|e q] eqn:Hq.
    + destruct (isspace d) eqn:Hd.
      * intros Hr. symmetry in Hr. by apply app_eq_nil in Hr as [_ ?].
      * destruct r as [|r0 r]; [by intros [= <-]|].
        rewrite app_cons. intros [= _ Hr]. symmetry in Hr.
        by apply app_eq_nil in Hr as [_ ?].
    + destruct r as [|r0 r]; [done|].
      rewrite app_cons. intros [= _ Hr]. by apply (IH r).
Qed.

(** A string that does not end with a blank is left as it is. *)
Lemma rstrip_solid t :
  (forall r c, t = r +:+ String c "" -> ~ blank c) -> rstrip t = t.
Proof.
  induction t as [|c t IH]; [done|]. intros Ht. simpl.
  rewrite IH.
  - destruct t as [|d t]; [|done].
    assert (Hc : isspace c = false)
      by (apply not_blank_isspace, (Ht ""); done).
    by rewrite Hc.
  - intros r e ->. apply (Ht (String c r)). by rewrite app_cons.
Qed.

Lemma lstrip_solid t :
  (forall c r, t = String c r -> ~ blank c) -> lstrip t = t.
Proof.
  destruct t as [|c t]; [done|]. intros Ht. simpl.
  assert (Hc : isspace c = false) by (by eapply not_blank_isspace, Ht).
  by rewrite Hc.
Qed.

Lemma trimmed_strip s t : trimmed s t <-> t = strip s.
Proof.
  unfold strip. split.
  - intros ((a & b & -> & Ha & Hb) & Hl & Hr).
    rewrite (lstrip_blanks a _ Ha).
    destruct t as [|c t].
    + change ("" +:+ b) with b. by rewrite (lstrip_blanks_only b Hb).
    + assert (Hc : isspace c = false) by (by eapply not_blank_isspace, Hl).
      rewrite app_cons, (lstrip_fixed _ _ Hc), <- app_cons, (rstrip_blanks _ _ Hb).
      symmetry. by apply rstrip_solid.
  - intros ->. split; [|split].
    + destruct (lstrip_split s) as (a & Hs & Ha).
      destruct (rstrip_split (lstrip s)) as (b & Hl & Hb).
      exists a, b. by rewrite <- Hl, <- Hs.
    + intros c r Hr. apply not_blank_isspace.
      destruct (lstrip_head s) as [Hl|(d & t & Hl & Hd)]; rewrite Hl in Hr; [done|].
      destruct (rstrip_head d t Hd) as [q Hq]. rewrite Hq in Hr. by injection Hr as <- _.
    + intros r c Hr. apply not_blank_isspace. by apply rstrip_last in Hr.
Qed.

Lemma before_cut c s t : before c s t <-> t = fst (cut c s).
Proof.
  split.
  - intros [Ht [->|[b ->]]].
    + apply not_has_contains in Ht. by rewrite (cut_absent _ _ Ht).
    + apply not_has_contains in Ht. by rewrite (cut_unique _ _ _ Ht).
  - intros ->. split; [apply not_has_contains, cut_fst_without|].
    destruct (contains c s) eqn:Hc.
    + destruct (cut_found c s Hc) as (a & b & -> & -> & _). right. by exists b.
    + rewrite (cut_absent _ _ Hc). by left.
Qed.


Import SyncService.

(** A text without a line break. *)
Definition unbroken (s : string) : Prop :=
  ~ has "010" s /\ ~ has "013" s.

(** [text_lines content ls]: [ls] are the lines of [content], in order.  A
    line ends at a line feed, at a carriage return followed by a line feed,
    or at a carriage return alone, and is read with a line feed at its end;
    what follows the last break is a line when it is not empty. *)
Inductive text_lines : string -> list string -> Prop :=
  | lines_end :
      text_lines "" []
  | lines_last body :
      body <> "" -> unbroken body -> text_lines body [body]
  | lines_lf body rest ls :
      unbroken body -> text_lines rest ls ->
      text_lines (body +:+ String "010" rest) ((body +:+ String "010" "") :: ls)
  | lines_crlf body rest ls :
      unbroken body -> text_lines rest ls ->
      text_lines (body +:+ String "013" (String "010" rest))
                 ((body +:+ String "010" "") :: ls)
  | lines_cr body rest ls :
      unbroken body -> ~ starts (String "010" "") rest -> text_lines rest ls ->
      text_lines (body +:+ String "013" rest) ((body +:+ String "010" "") :: ls).

Lemma unbroken_contains s :
  unbroken s <-> contains "010" s = false /\ contains "013" s = false.
Proof. unfold unbroken. by rewrite !not_has_contains. Qed.

Lemma universal_newlines_unbroken body x :
  contains "013" body = false ->
  universal_newlines (body +:+ x) = body +:+ universal_newlines x.
Proof.
  induction body as [|c body IH]; [done|]. simpl.
  destruct (Ascii.eqb c "013") eqn:Hc; [done|]. intros Hb.
  rewrite !app_cons. simpl. by rewrite ?Hc, IH.
Qed.

Lemma lines_from_unbroken body : forall cur x,
  contains "010" body = false ->
  lines_from cur (body +:+ x) = lines_from (String.rev_app body cur) x.
Proof.
  induction body as [|c body IH]; intros cur x; [done|]. simpl.
  destruct (Ascii.eqb c "010") eqn:Hc; [done|]. intros Hb.
  rewrite ?app_cons. simpl. by rewrite ?Hc, IH.
Qed.

Lemma rev_app_rev_app b : forall a x,
  String.rev_app (String.rev_app b a) x = String.rev_app a (b +:+ x).
Proof.
  induction b as [|c b IH]; intros a x; [done|]. simpl. by rewrite IH.
Qed.

Lemma rev_rev_app b : String.rev (String.rev_app b "") = b.
Proof. unfold String.rev. rewrite rev_app_rev_app. simpl. apply app_nil_r. Qed.

Lemma rev_line b :
  String.rev (String "010" (String.rev_app b "")) = b +:+ String "010" "".
Proof. unfold String.rev. simpl. by rewrite rev_app_rev_app. Qed.

Lemma readlines_line body tail :
  unbroken body ->
  lines_from "" (universal_newlines (body +:+ tail)) =
    lines_from (String.rev_app body "") (universal_newlines tail).
Proof.
  intros [Hlf Hcr]%unbroken_contains.
  by rewrite universal_newlines_unbroken, lines_from_unbroken.
Qed.

Lemma universal_newlines_cr rest :
  ~ starts (String "010" "") rest ->
  universal_newlines (String "013" rest) = String "010" (universal_newlines rest).
Proof.
  intros Hr. destruct rest as [|d rest]; [done|]. simpl.
  destruct (Ascii.eqb_spec d "010") as [->|]; [|done].
  destruct Hr. by exists rest.
Qed.

Lemma text_lines_readlines content ls :
  text_lines content ls -> ls = readlines content.
Proof.
  unfold readlines.
  induction 1 as [|body Hne Hb|body rest ls Hb _ IH|body rest ls Hb _ IH
                  |body rest ls Hb Hr _ IH].
  - done.
  - rewrite <- (app_nil_r body) at 2. rewrite (readlines_line _ _ Hb). simpl.
    pose proof (rev_rev_app body) as Hrev.
    destruct (String.rev_app body "") as [|c r]; [|by rewrite Hrev].
    by destruct Hne.
  - rewrite (readlines_line _ _ Hb). simpl. by rewrite rev_line, IH.
  - rewrite (readlines_line _ _ Hb). simpl. by rewrite rev_line, IH.
  - rewrite (readlines_line _ _ Hb), (universal_newlines_cr _ Hr). simpl.
    by rewrite rev_line, IH.
Qed.

Lemma not_has_nil c : ~ has c "".
Proof. intros ([|d a] & b & Hs); discriminate Hs. Qed.

Lemma first_break s :
  unbroken s \/
  exists body c rest,
    s = body +:+ String c rest /\ unbroken body /\ (c = "010" \/ c = "013")%char.
Proof.
  induction s as [|d s IH].
  - left. split; apply not_has_nil.
  - destruct (Ascii.eqb_spec d "010") as [->|Hlf].
    { right. exists "", "010"%char, s. split; [done|].
      split; [split; apply not_has_nil|by left]. }
    destruct (Ascii.eqb_spec d "013") as [->|Hcr].
    { right. exists "", "013"%char, s. split; [done|].
      split; [split; apply not_has_nil|by right]. }
    assert (Hext : forall b, unbroken b -> unbroken (String d b)).
    { intros b [H1 H2]%unbroken_contains. apply unbroken_contains. simpl.
      apply Ascii.eqb_neq in Hlf, Hcr. by rewrite Hlf, Hcr. }
    destruct IH as [Hs|(body & c & rest & -> & Hb & Hc)].
    + left. by apply Hext.
    + right. exists (String d body), c, rest. split; [done|]. split; [by apply Hext|done].
Qed.

Lemma length_app a b : String.length (a +:+ b) = (String.length a + String.length b)%nat.
Proof. induction a as [|c a IH]; [done|]. rewrite app_cons. simpl. by rewrite IH. Qed.

Lemma text_lines_exist content : exists ls, text_lines content ls.
Proof.
  remember (String.length content) as n eqn:Hn. revert content Hn.
  induction n as [n IH] using lt_wf_ind. intros content ->.
  destruct (first_break content) as [Hb|(body & c & rest & -> & Hb & Hc)].
  - destruct content as [|d s].
    + exists []. constructor.
    + exists [String d s]. by constructor.
  - destruct Hc as [->| ->].
    + destruct (IH (String.length rest)) with (content := rest) as [ls Hls]; [|done|].
      { rewrite length_app. simpl. lia. }
      eexists. by apply lines_lf.
    + destruct rest as [|d rest].
      * eexists. apply lines_cr; [done| |constructor]. by intros [t Ht].
      * destruct (Ascii.eqb_spec d "010") as [->|Hd].
        -- destruct (IH (String.length rest)) with (content := rest) as [ls Hls]; [|done|].
           { rewrite length_app. simpl. lia. }
           eexists. by apply lines_crlf.
        -- destruct (IH (String.length (String d rest))) with (content := String d rest)
             as [ls Hls]; [|done|].
           { rewrite length_app. simpl. lia. }
           eexists. apply lines_cr; [done| |done].
           intros [t Ht]. injection Ht as -> _. done.
Qed.

(** The lines of a text are the ones the reading loop sees. *)
Lemma text_lines_iff content ls :
  text_lines content ls <-> ls = readlines content.
Proof.
  split; [apply text_lines_readlines|]. intros ->.
  destruct (text_lines_exist content) as [ls Hls].
  by rewrite <- (text_lines_readlines _ _ Hls).
Qed.

End Words.

(** ** The environment overlay *)

Module LoadEnv.

Import SyncService PyFacts Strip Words.

(** *** The overlay in the words of the specification *)

(** [entry line k v]: the line counts, and gives the key [k] and the value
    [v].  Trimmed, the line is not empty, does not start with ['#'] and
    holds an ['=']; what precedes the first ['='] is the key, trimmed; what
    follows it is trimmed, loses everything from its first ['#'] on, and is
    trimmed again: that is the value. *)
Inductive entry (line : string) : string -> string -> Prop :=
  | entry_intro l a b k b' w v :
      trimmed line l -> l <> "" -> ~ starts "#" l ->
      l = a +:+ String "=" b -> ~ has "=" a ->
      trimmed a k ->
      trimmed b b' -> before "#" b' w -> trimmed w v ->
      entry line k v.

(** Any other line is passed over. *)
Definition ignored (line : string) : Prop :=
  exists l, trimmed line l /\ (l = "" \/ starts "#" l \/ ~ has "=" l).

(** The process environment holds a pair whose name is not empty, when
    neither the name nor the value has a NUL character. *)
Definition accepted (k v : string) : Prop :=
  k <> "" /\ ~ has "000" k /\ ~ has "000" v.

(** It refuses the others: a NUL character with a [ValueError], an empty
    name with the error of the system. *)
Inductive refusal (k v : string) : exn -> Prop :=
  | refusal_nul :
      has "000" k \/ has "000" v ->
      refusal k v (Exn ValueError "embedded null byte")
  | refusal_nameless :
      k = "" -> ~ has "000" v ->
      refusal k v (Exn OSError "[Errno 22] Invalid argument").

(** The overlay of a list of lines over a state: each line that counts
    writes its pair into the environment and into the loaded set, the other
    lines change nothing, and the first pair the environment refuses ends
    the overlay with the exception of the refusal. *)
Inductive overlay : env_state -> list string -> outcome env_state -> Prop :=
  | overlay_done st :
      overlay st [] (Returned st)
  | overlay_bind st line k v rest r :
      entry line k v -> accepted k v ->
      overlay {| environ := <[k := v]> (environ st);
                 loaded := <[k := v]> (loaded st) |} rest r ->
      overlay st (line :: rest) r
  | overlay_refused st line k v rest ex :
      entry line k v -> refusal k v ex ->
      overlay st (line :: rest) (Raised ex)
  | overlay_skip st line rest r :
      ignored line -> overlay st rest r ->
      overlay st (line :: rest) r.

(** What [load_env] does to an environment, file or no file. *)
Definition overlay_of (env : gmap string string) (file : option string)
    (r : outcome env_state) : Prop :=
  match file with
  | None => r = Returned {| environ := env; loaded := ∅ |}
  | Some content =>
      exists ls, text_lines content ls /\
                 overlay {| environ := env; loaded := ∅ |} ls r
  end.

(** *** The loop, line by line *)

(** The test at the head of the loop. *)
Definition counts (line : string) : bool :=
  let l := strip line in
  truthy l && negb (startswith "#" l) && contains "=" l.

(** The key and the value a line binds, if it binds any. *)
Definition binding (line : string) : option (string * string) :=
  if counts line then
    match cut "=" (strip line) with
    | (k, Some v) => Some (strip k, _strip_comment (strip v))
    | (_, None) => None
    end
  else None.

Lemma counts_cut line :
  counts line = true ->
  exists a b,
    cut "=" (strip line) = (a, Some b) /\
    strip line = a +:+ String "=" b /\ contains "=" a = false.
Proof.
  unfold counts. intros Hc.
  apply andb_true_iff in Hc as [_ Heq].
  destruct (cut_found _ _ Heq) as (a & b & Hcut & Hline & Ha). by exists a, b.
Qed.

Lemma binding_Some line k v :
  binding line = Some (k, v) <->
  counts line = true /\
  exists a b, strip line = a +:+ String "=" b /\ contains "=" a = false /\
              k = strip a /\ v = _strip_comment (strip b).
Proof.
  unfold binding. split.
  - destruct (counts line) eqn:Hc; [|done].
    destruct (counts_cut line Hc) as (a & b & -> & Hl & Ha).
    intros [= <- <-]. split; [done|]. by exists a, b.
  - intros (-> & a & b & Hl & Ha & -> & ->).
    by rewrite Hl, (cut_unique "=" a b Ha).
Qed.

Lemma binding_None line : binding line = None <-> counts line = false.
Proof.
  unfold binding. destruct (counts line) eqn:Hc; [|done].
  destruct (counts_cut line Hc) as (a & b & -> & _). done.
Qed.

Lemma binding_key line k v : binding line = Some (k, v) -> contains "=" k = false.
Proof.
  intros (_ & a & b & _ & Ha & -> & _)%binding_Some. by apply strip_without.
Qed.

(** One iteration of the loop: a line that binds nothing is passed over,
    a line that binds a pair hands the pair to the environment. *)
Lemma load_env_line_binding st line :
  load_env_line st line =
    match binding line with
    | Some (k, v) =>
        env ← setenv (environ st) k v;
        Returned {| environ := env; loaded := <[k := v]> (loaded st) |}
    | None => Returned st
    end.
Proof.
  unfold load_env_line, binding.
  destruct (counts line) eqn:Hc.
  - destruct (counts_cut line Hc) as (a & b & Hcut & _).
    unfold counts in Hc. apply andb_true_iff in Hc as [Hc Heq].
    apply andb_true_iff in Hc as [Ht Hh]. apply negb_true_iff in Hh.
    unfold split1. by rewrite Ht, Hh, Heq, Hcut.
  - unfold counts in Hc.
    destruct (truthy (strip line)); simpl in *; [|done].
    destruct (startswith "#" (strip line)); simpl in *; [done|].
    by rewrite Hc.
Qed.

(** *** The words and the loop agree *)

Lemma entry_binding line k v : entry line k v <-> binding line = Some (k, v).
Proof.
  rewrite binding_Some. unfold counts, _strip_comment. split.
  - intros [l a b k0 b' w v0 Hl Hne Hst Hcut Ha Hk Hb Hw Hv].
    apply trimmed_strip in Hl, Hk, Hb, Hv. apply before_cut in Hw.
    apply not_has_contains in Ha. subst.
    split.
    + apply andb_true_intro. split; [apply andb_true_intro; split|].
      * by apply truthy_true.
      * apply negb_true_iff. destruct (startswith "#" (strip line)) eqn:Hs; [|done].
        by apply starts_startswith in Hs.
      * apply has_contains. rewrite Hcut. by exists a, b.
    + by exists a, b.
  - intros (Hc & a & b & Hl & Ha & -> & ->).
    apply andb_true_iff in Hc as [Hc _]. apply andb_true_iff in Hc as [Ht Hh].
    apply negb_true_iff in Hh.
    eapply (entry_intro line (strip line) a b).
    + by apply trimmed_strip.
    + by apply truthy_true.
    + intros Hs%starts_startswith. congruence.
    + done.
    + by apply not_has_contains.
    + by apply trimmed_strip.
    + by apply trimmed_strip.
    + by apply before_cut.
    + by apply trimmed_strip.
Qed.

Lemma ignored_binding line : ignored line <-> binding line = None.
Proof.
  rewrite binding_None. unfold counts. split.
  - intros (l & ->%trimmed_strip & [Hl|[Hl|Hl]]).
    + by rewrite Hl.
    + apply starts_startswith in Hl. rewrite Hl. by rewrite andb_false_r.
    + apply not_has_contains in Hl. rewrite Hl. by rewrite andb_false_r.
  - intros Hc. exists (strip line). split; [by apply trimmed_strip|].
    destruct (strip line) as [|c l] eqn:Hl; [by left|right].
    destruct (startswith "#" (String c l)) eqn:Hs.
    + left. by apply starts_startswith.
    + right. apply not_has_contains. exact Hc.
Qed.

Lemma setenv_accepted env k v :
  contains "=" k = false ->
  accepted k v <-> setenv env k v = Returned (<[k := v]> env).
Proof.
  unfold accepted, setenv. rewrite !not_has_contains. intros ->.
  destruct (contains "000" k), (contains "000" v), k; simpl; split;
    (done || by intros (? & ? & ?)).
Qed.

Lemma setenv_refusal env k v ex :
  contains "=" k = false ->
  refusal k v ex <-> setenv env k v = Raised ex.
Proof.
  unfold setenv. intros ->. split.
  - intros [[Hn|Hn] | -> Hv].
    + apply has_contains in Hn. by rewrite Hn.
    + apply has_contains in Hn. rewrite Hn. by rewrite orb_true_r.
    + apply not_has_contains in Hv. by rewrite Hv.
  - destruct (contains "000" k) eqn:Hk; simpl.
    { intros [= <-]. constructor. left. by apply has_contains. }
    destruct (contains "000" v) eqn:Hv; simpl.
    { intros [= <-]. constructor. right. by apply has_contains. }
    destruct k; simpl; [|done].
    intros [= <-]. constructor; [done|]. by apply not_has_contains.
Qed.

Lemma setenv_returned env k v env' :
  setenv env k v = Returned env' -> env' = <[k := v]> env.
Proof.
  unfold setenv. repeat case_match; congruence.
Qed.

Lemma overlay_load_env_lines st ls r :
  overlay st ls r -> load_env_lines st ls = r.
Proof.
  induction 1 as [st|st line k v rest r He Ha _ IH|st line k v rest ex He Hr
                  |st line rest r Hi _ IH]; simpl.
  - done.
  - rewrite load_env_line_binding.
    apply entry_binding in He. rewrite He.
    apply (setenv_accepted (environ st)) in Ha; [|by eapply binding_key].
    by rewrite Ha.
  - rewrite load_env_line_binding.
    apply entry_binding in He. rewrite He.
    apply (setenv_refusal (environ st)) in Hr; [|by eapply binding_key].
    by rewrite Hr.
  - rewrite load_env_line_binding.
    apply ignored_binding in Hi. by rewrite Hi.
Qed.

Lemma load_env_lines_overlay ls : forall st,
  overlay st ls (load_env_lines st ls).
Proof.
  induction ls as [|line rest IH]; intros st; simpl; [constructor|].
  rewrite load_env_line_binding.
  destruct (binding line) as [[k v]|] eqn:Hb.
  - pose proof (binding_key _ _ _ Hb) as Hk. apply entry_binding in Hb.
    destruct (setenv (environ st) k v) as [env'|ex] eqn:Hs; simpl.
    + pose proof (setenv_returned _ _ _ _ Hs) as ->.
      eapply overlay_bind; [done|by eapply setenv_accepted|apply IH].
    + eapply overlay_refused; [done|by eapply setenv_refusal].
  - simpl. apply overlay_skip; [by apply ignored_binding|apply IH].
Qed.

(** C8, as the code has it.  [load_env] does what the overlay says and
    nothing else: the
    outcomes of [load_env] on a file are exactly the outcomes of the overlay
    of its lines over the environment, starting from an empty loaded set.
    So exactly the lines that, trimmed, are not empty, do not start with
    ['#'] and hold an ['='] give a pair, split at the first ['='], key and
    value trimmed and the value cut at its first ['#']; the pair is written
    into the environment and into the loaded set; the other lines change
    neither; and the first pair with an empty key or a NUL character makes
    [load_env] raise.  Without a file nothing changes.  A file whose only
    line is [DB_DSN=testdsn] leaves exactly ["testdsn"] under [DB_DSN]. *)
Theorem load_env_overlay (env : gmap string string) (file : option string)
    (r : outcome env_state) :
  (load_env env file = r <-> overlay_of env file r) /\
  load_env env (Some "DB_DSN=testdsn") =
    Returned {| environ := <["DB_DSN" := "testdsn"]> env;
                loaded := {["DB_DSN" := "testdsn"]} |}.
Proof.
  split; [|done].
  destruct file as [content|]; simpl; [|split; congruence].
  split.
  - intros <-. exists (readlines content).
    split; [by apply text_lines_iff|apply load_env_lines_overlay].
  - intros (ls & ->%text_lines_iff & Hov). by apply overlay_load_env_lines.
Qed.

(** A line without a key counts, and [load_env] raises on it. *)
Lemma load_env_nameless_line :
  entry "=x" "" "x" /\
  load_env ∅ (Some "=x") = Raised (Exn OSError "[Errno 22] Invalid argument").
Proof. split; [by apply entry_binding|done]. Qed.

End LoadEnv.

(** ** Bind address selection *)

Module BindAddress.

Import SyncService.

(** A list without its repeats, each element where it came first. *)
Fixpoint first_seen (l : list string) : list string :=
  match l with
  | [] => []
  | x :: rest => x :: filter (fun y => y ≠ x) (first_seen rest)
  end.

Lemma uniq_loop_first_seen cands : forall seen uniq,
  uniq_loop seen uniq cands = uniq ++ filter (fun y => y ∉ seen) (first_seen cands).
Proof.
  induction cands as [|x rest IH]; intros seen uniq; simpl.
  - by rewrite app_nil_r.
  - destruct (decide (x ∈ seen)) as [Hin|Hnin].
    + rewrite IH, filter_cons_False by (intros Hx; by apply Hx).
      f_equal. rewrite list_filter_filter. apply list_filter_iff.
      intros y. split; [|tauto]. intros Hy. split; [done|]. by intros ->.
    + rewrite IH, filter_cons_True by done.
      rewrite <- app_assoc. simpl. do 2 f_equal.
      rewrite list_filter_filter. apply list_filter_iff.
      intros y. set_solver.
Qed.

Lemma first_seen_elem x l : x ∈ first_seen l <-> x ∈ l.
Proof.
  induction l as [|y l IH]; simpl; [done|].
  rewrite !elem_of_cons, list_elem_of_filter, IH.
  destruct (decide (x = y)); naive_solver.
Qed.

Lemma first_seen_NoDup l : NoDup (first_seen l).
Proof.
  induction l as [|y l IH]; simpl; constructor.
  - rewrite list_elem_of_filter. naive_solver.
  - by apply NoDup_filter.
Qed.

Lemma filter_all (P : string -> Prop) `{!forall x, Decision (P x)} (l : list string) :
  (forall x, P x) -> filter P l = l.
Proof.
  intros HP. induction l as [|x l IH]; [done|].
  by rewrite filter_cons_True, IH.
Qed.

Lemma ipv4_candidates_first_seen net :
  ipv4_candidates net = first_seen (gathered net).
Proof.
  unfold ipv4_candidates. rewrite uniq_loop_first_seen. simpl.
  apply filter_all. intros y. set_solver.
Qed.

(** What is gathered: the outbound address when the probe for it
    answers, and the non-empty, non-loopback addresses of the host name. *)
Lemma gathered_elem net x :
  x ∈ gathered net <->
    outbound net = Returned x \/
    exists infos, host_addresses net = Returned infos /\
      x ∈ infos /\ x ≠ "" /\ x ≠ "127.0.0.1".
Proof.
  assert (Hf : forall infos : list string,
    x ∈ filter (fun ip => truthy ip && negb (String.eqb ip "127.0.0.1") = true) infos
    <-> x ∈ infos /\ x ≠ "" /\ x ≠ "127.0.0.1").
  { intros infos. rewrite list_elem_of_filter, andb_true_iff, negb_true_iff.
    rewrite PyFacts.truthy_true, String.eqb_neq. tauto. }
  unfold gathered.
  destruct (outbound net) as [o|e], (host_addresses net) as [infos|e']; simpl.
  - rewrite elem_of_cons, Hf. split.
    + intros [->|Hx]; [by left|right; by exists infos].
    + intros [[= ->]|(infos' & [= <-] & Hx)]; [by left|by right].
  - rewrite list_elem_of_singleton. split.
    + intros ->. by left.
    + intros [[= ->]|(infos' & [=] & _)]. done.
  - rewrite Hf. split.
    + intros Hx. right. by exists infos.
    + intros [[=]|(infos' & [= <-] & Hx)]. done.
  - split; [by intros ?%elem_of_nil|].
    intros [[=]|(infos' & [=] & _)].
Qed.

(** The probing loop: it stops at the first address that can be bound. *)
Lemma select_loop_spec net port cands : forall tried,
  let '(ip, tried') := select_loop net port tried cands in
  last tried' = Some ip /\
  ((exists before after,
      cands = before ++ ip :: after /\
      tried' = tried ++ before ++ [ip] /\
      probe net ip port = Returned () /\
      Forall (fun c => exists e, probe net c port = Raised e) before)
   \/ (ip = "0.0.0.0" /\ tried' = tried ++ cands ++ ["0.0.0.0"] /\
       Forall (fun c => exists e, probe net c port = Raised e) cands)).
Proof.
  induction cands as [|c rest IH]; intros tried; simpl.
  - split; [by rewrite last_snoc|]. right. by repeat split.
  - destruct (probe net c port) as [[]|e] eqn:Hp.
    + split; [by rewrite last_snoc|]. left.
      exists [], rest. by repeat split.
    + specialize (IH (tried ++ [c])).
      destruct (select_loop net port (tried ++ [c]) rest) as [ip tried'].
      destruct IH as [Hlast [(before & after & -> & -> & Hok & Hbad)|(-> & -> & Hbad)]].
      * split; [done|]. left. exists (c :: before), after.
        repeat split; [by rewrite <- app_assoc|done|].
        constructor; [by exists e|done].
      * split; [done|]. right.
        repeat split; [by rewrite <- app_assoc|].
        constructor; [by exists e|done].
Qed.

(** C7. [select_bind_ip] always returns an address and the list of the
    addresses it tried.  The candidates are the gathered addresses without
    repeats, in the order they were first seen; an address of the host name
    is a candidate only when it is not the loopback address.  Either the
    address returned is the first candidate whose probe succeeded, and the
    list tried is the candidates up to it, or every candidate failed, the
    address is ["0.0.0.0"] and the list tried is all the candidates followed
    by ["0.0.0.0"].  In both cases the address is the last one tried. *)
Theorem select_bind_ip_spec (net : network) (port : Z) :
  let cands := ipv4_candidates net in
  let '(ip, tried) := select_bind_ip net port in
  (cands = first_seen (gathered net) /\ NoDup cands /\
   forall x, x ∈ cands <->
     outbound net = Returned x \/
     exists infos, host_addresses net = Returned infos /\
       x ∈ infos /\ x ≠ "" /\ x ≠ "127.0.0.1") /\
  last tried = Some ip /\
  ((exists before after,
      cands = before ++ ip :: after /\
      tried = before ++ [ip] /\
      probe net ip port = Returned () /\
      Forall (fun c => exists e, probe net c port = Raised e) before)
   \/ (ip = "0.0.0.0" /\ tried = cands ++ ["0.0.0.0"] /\
       Forall (fun c => exists e, probe net c port = Raised e) cands)).
Proof.
  intros cands. unfold select_bind_ip.
  pose proof (select_loop_spec net port (ipv4_candidates net) []) as Hloop.
  fold cands in Hloop |- *.
  destruct (select_loop net port [] cands) as [ip tried].
  split; [|exact Hloop].
  subst cands. rewrite ipv4_candidates_first_seen.
  split; [done|]. split; [apply first_seen_NoDup|].
  intros x. by rewrite first_seen_elem, gathered_elem.
Qed.

End BindAddress.

(** ** A token library to run the handlers with

    A small instance of [JwtLib]: the compact form spells out the
    algorithm, the claims and the signature one after the other, every
    string character behind a marker and every number bit by bit, so that
    the parser can find where each one ends.  It shows that the two laws of
    the interface can be met, and it lets the handlers be evaluated on
    concrete requests. *)

Module ToyJwt.

Import Views.

Fixpoint enc_str (s : string) : string :=
  match s with
  | EmptyString => "."
  | String c s' => String "c" (String c (enc_str s'))
  end.

Fixpoint dec_str (t : string) : option (string * string) :=
  match t with
  | EmptyString => None
  | String a t' =>
      if Ascii.eqb a "." then Some (EmptyString, t')
      else
        match t' with
        | EmptyString => None
        | String c r =>
            match dec_str r with
            | Some (s, r') => Some (String c s, r')
            | None => None
            end
        end
  end.

Fixpoint enc_pos (p : positive) : string :=
  match p with
  | xH => "."
  | xO q => String "0" (enc_pos q)
  | xI q => String "1" (enc_pos q)
  end.

Fixpoint dec_pos (t : string) : option (positive * string) :=
  match t with
  | EmptyString => None
  | String a t' =>
      if Ascii.eqb a "." then Some (xH, t')
      else
        match dec_pos t' with
        | Some (q, r) => Some ((if Ascii.eqb a "1" then xI q else xO q), r)
        | None => None
        end
  end.

Definition enc_Z (z : Z) : string :=
  match z with
  | Z0 => "z"
  | Zpos p => String "p" (enc_pos p)
  | Zneg p => String "n" (enc_pos p)
  end.

Definition dec_Z (t : string) : option (Z * string) :=
  match t with
  | EmptyString => None
  | String a t' =>
      if Ascii.eqb a "z" then Some (Z0, t')
      else
        match dec_pos t' with
        | Some (p, r) => Some ((if Ascii.eqb a "p" then Zpos p else Zneg p), r)
        | None => None
        end
  end.

Definition enc_opt {A} (enc : A -> string) (o : option A) : string :=
  match o with
  | None => "N"
  | Some a => String "S" (enc a)
  end.

Definition dec_opt {A} (dec : string -> option (A * string)) (t : string)
  : option (option A * string) :=
  match t with
  | EmptyString => None
  | String a t' =>
      if Ascii.eqb a "N" then Some (None, t')
      else
        match dec t' with
        | Some (x, r) => Some (Some x, r)
        | None => None
        end
  end.

Definition toy_compact (j : jws) : string :=
  enc_str (alg j) +:+ enc_opt enc_str (sub (payload j))
  +:+ enc_opt enc_Z (exp (payload j)) +:+ signature j.

Definition toy_parse (t : string) : option jws :=
  match dec_str t with
  | Some (a, r1) =>
      match dec_opt dec_str r1 with
      | Some (s, r2) =>
          match dec_opt dec_Z r2 with
          | Some (e, r3) =>
              Some {| alg := a; payload := {| sub := s; exp := e |}; signature := r3 |}
          | None => None
          end
      | None => None
      end
  | None => None
  end.

(** The signature: the key, the algorithm and the claims, spelled out. *)
Definition toy_sign (key algo : string) (c : claims) : string :=
  enc_str key +:+ enc_str algo +:+ enc_opt enc_str (sub c) +:+ enc_opt enc_Z (exp c).

(** The codec signs with the three HMAC algorithms and refuses any other
    name, as the library refuses an algorithm it does not implement. *)
Definition toy_refuses (key algo : string) : option exn :=
  if existsb (String.eqb algo) ["HS256"; "HS384"; "HS512"] then None
  else Some (Exn NotImplementedError "Algorithm not supported").

Lemma dec_enc_str s r : dec_str (enc_str s +:+ r) = Some (s, r).
Proof. induction s as [|c s IH]; simpl; [done|]. by rewrite IH. Qed.

Lemma dec_enc_pos p r : dec_pos (enc_pos p +:+ r) = Some (p, r).
Proof. induction p as [p IH|p IH|]; simpl; [by rewrite IH..|done]. Qed.

Lemma dec_enc_Z z r : dec_Z (enc_Z z +:+ r) = Some (z, r).
Proof. destruct z; simpl; [done|by rewrite dec_enc_pos..]. Qed.

Lemma dec_enc_opt {A} (enc : A -> string) dec :
  (forall a r, dec (enc a +:+ r) = Some (a, r)) ->
  forall o r, dec_opt dec (enc_opt enc o +:+ r) = Some (o, r).
Proof. intros Hd [a|] r; simpl; [by rewrite Hd|done]. Qed.

Lemma toy_parse_compact j : toy_parse (toy_compact j) = Some j.
Proof.
  destruct j as [a [s e] g]. unfold toy_parse, toy_compact. simpl.
  rewrite dec_enc_str.
  rewrite (dec_enc_opt enc_str dec_str dec_enc_str).
  rewrite (dec_enc_opt enc_Z dec_Z dec_enc_Z).
  done.
Qed.

#[local] Instance toy : JwtLib := {|
  sign := toy_sign;
  refuses := toy_refuses;
  compact := toy_compact;
  parse := toy_parse;
  parse_compact := toy_parse_compact;
  parse_empty := eq_refl
|}.

End ToyJwt.

(** ** Token validation *)

Module Auth.

Import Views PyFacts.

Section Validation.

Context `{JwtLib}.

(** A token is well signed when its header names the configured
    algorithm, the library works with the configured secret under it, and
    its signature is the one the configured secret gives. *)
Definition well_signed (env : gmap string string) (j : jws) : Prop :=
  alg j = JWT_ALGO env /\
  refuses (JWT_SECRET env) (alg j) = None /\
  signature j = sign (JWT_SECRET env) (alg j) (payload j).

(** [token] is valid for [u] at time [now]. *)
Definition valid_for (env : gmap string string) (now : Z) (token u : string) : Prop :=
  exists j, parse token = Some j /\ well_signed env j /\
    (forall e, exp (payload j) = Some e -> now < e) /\
    sub (payload j) = Some u.

Lemma _extract_token_bearer req t :
  authorization req = Some ("Bearer " +:+ t) ->
  _extract_token req = Returned (Some t).
Proof.
  unfold _extract_token. intros ->. simpl default.
  rewrite startswith_app. reflexivity.
Qed.

Lemma _extract_token_total req :
  exists o, _extract_token req = Returned o /\
    (truthy (default "" o) = true ->
     authorization req = Some ("Bearer " +:+ default "" o)).
Proof.
  unfold _extract_token.
  destruct (startswith "Bearer " (default "" (authorization req))) eqn:Hs; simpl.
  - apply startswith_inv in Hs as [t Ht].
    destruct (authorization req) as [hdr|]; simpl in *; [|by destruct t].
    subst hdr. exists (Some t). by split.
  - exists None. split; [done|discriminate].
Qed.

Lemma _decode_well_signed env now token j :
  parse token = Some j -> well_signed env j ->
  _decode env now token =
    match exp (payload j) with
    | Some e =>
        if e <=? now
        then Raised (Exn ExpiredSignatureError "Signature has expired")
        else Returned (payload j)
    | None => Returned (payload j)
    end.
Proof.
  intros Hp (Ha & Hr & Hs). unfold _decode, jwt_decode. rewrite Hp. simpl.
  rewrite Hr, Hs, Ha, !String.eqb_refl. done.
Qed.

Lemma _decode_rejects env now token :
  parse token = None \/ (exists j, parse token = Some j /\ ~ well_signed env j) ->
  exists msg, _decode env now token = Raised (Exn PyJWTError msg).
Proof.
  unfold _decode, jwt_decode. intros [->|(j & -> & Hbad)]; [by eexists|].
  simpl. destruct (String.eqb_spec (alg j) (JWT_ALGO env)) as [Ha|Ha]; simpl;
    [|by eexists].
  destruct (refuses (JWT_SECRET env) (alg j)) as [ex|] eqn:Hr.
  { unfold refused_token. destruct (exn_cls ex); by eexists. }
  destruct (String.eqb_spec (signature j) (sign (JWT_SECRET env) (alg j) (payload j)))
    as [Hs|Hs]; simpl; [|by eexists].
  destruct Hbad. by split.
Qed.

Lemma jwt_required_valid env now view req token u :
  authorization req = Some ("Bearer " +:+ token) ->
  valid_for env now token u ->
  jwt_required env now view req = view (set_userid req u).
Proof.
  intros Hh (j & Hp & Hw & He & Hu). unfold jwt_required.
  rewrite (_extract_token_bearer _ _ Hh). simpl.
  assert (token <> "") as Hne by (intros ->; rewrite parse_empty in Hp; done).
  apply truthy_true in Hne. rewrite Hne. simpl.
  rewrite (_decode_well_signed _ _ _ _ Hp Hw).
  destruct (exp (payload j)) as [e|] eqn:Hexp.
  - specialize (He e eq_refl). destruct (Z.leb_spec e now); [lia|].
    simpl. unfold payload_sub. by rewrite Hu.
  - simpl. unfold payload_sub. by rewrite Hu.
Qed.

(** X1. The outcomes of token validation, for tokens that name a subject.
    A header that is absent, or is not ["Bearer "] followed by a non-empty
    token, is answered with 401 ["Token missing"].  For a header ["Bearer " ++ t] with [t] non-empty: a
    well signed token whose expiry has passed is answered with 401 ["Token
    expired"]; a string that does not parse as a token, or a token that is
    not well signed (wrong algorithm, an algorithm or a key the library
    refuses, missing or altered signature), is
    answered with 401 ["Invalid token"]; and a well signed token that has
    not expired and names a subject passes the request on to the view with
    that subject attached.  The three answers are different from one
    another. *)
Theorem jwt_required_partition (env : gmap string string) (now : Z)
    (view : request -> reply) (req : request) :
  ((forall t, t <> "" -> authorization req <> Some ("Bearer " +:+ t)) ->
   jwt_required env now view req = no_db (Returned (detail "Token missing" 401)))
  /\
  (forall t, authorization req = Some ("Bearer " +:+ t) -> t <> "" ->
     (forall j e, parse t = Some j -> well_signed env j ->
        exp (payload j) = Some e -> e < now ->
        jwt_required env now view req = no_db (Returned (detail "Token expired" 401)))
     /\
     (parse t = None \/ (exists j, parse t = Some j /\ ~ well_signed env j) ->
        jwt_required env now view req = no_db (Returned (detail "Invalid token" 401)))
     /\
     (forall u, valid_for env now t u ->
        jwt_required env now view req = view (set_userid req u)))
  /\
  detail "Token missing" 401 <> detail "Token expired" 401 /\
  detail "Token missing" 401 <> detail "Invalid token" 401 /\
  detail "Token expired" 401 <> detail "Invalid token" 401.
Proof.
  split; [|split; [|by repeat split]].
  - intros Hform. unfold jwt_required.
    destruct (_extract_token_total req) as (o & -> & Ho).
    destruct (truthy (default "" o)) eqn:Ht; simpl; [|done].
    exfalso. apply (Hform (default "" o)); [by apply truthy_true|by apply Ho].
  - intros t Hh Hne. apply truthy_true in Hne.
    split; [|split].
    + intros j e Hp Hw He Hlt. unfold jwt_required.
      rewrite (_extract_token_bearer _ _ Hh). simpl. rewrite Hne. simpl.
      rewrite (_decode_well_signed _ _ _ _ Hp Hw), He.
      destruct (Z.leb_spec e now); [done|lia].
    + intros Hbad. unfold jwt_required.
      rewrite (_extract_token_bearer _ _ Hh). simpl. rewrite Hne. simpl.
      destruct (_decode_rejects env now t Hbad) as [msg ->]. done.
    + intros u Hv. by apply (jwt_required_valid env now view req t u).
Qed.

(** A well signed, unexpired token without a subject: the [KeyError]
    raised by [payload["sub"]] is not one of the exceptions [jwt_required]
    handles, and leaves it. *)
Lemma jwt_required_no_subject env now view req t j :
  authorization req = Some ("Bearer " +:+ t) ->
  parse t = Some j -> well_signed env j ->
  (forall e, exp (payload j) = Some e -> now < e) ->
  sub (payload j) = None ->
  jwt_required env now view req = no_db (Raised (Exn KeyError "'sub'")).
Proof.
  intros Hh Hp Hw He Hu. unfold jwt_required.
  rewrite (_extract_token_bearer _ _ Hh). simpl.
  assert (t <> "") as Hne by (intros ->; rewrite parse_empty in Hp; done).
  apply truthy_true in Hne. rewrite Hne. simpl.
  rewrite (_decode_well_signed _ _ _ _ Hp Hw).
  destruct (exp (payload j)) as [e|] eqn:Hexp.
  - specialize (He e eq_refl). destruct (Z.leb_spec e now); [lia|].
    simpl. unfold payload_sub. by rewrite Hu.
  - simpl. unfold payload_sub. by rewrite Hu.
Qed.

End Validation.

End Auth.

(** ** Login *)

Module Login.

Import Views PyFacts Auth.

(** The text a JSON object submits for a field: the string it holds, or
    the empty string when the field is absent or holds a value Python
    counts as false.  A field that holds any other value submits no text. *)
Definition submitted (data : list (string * pyval)) (k : string) : option string :=
  match or_empty (default PNone (assoc k data)) with
  | PStr s => Some s
  | _ => None
  end.

Lemma read_credentials_object data u p :
  submitted data "userid" = Some u ->
  submitted data "password" = Some p ->
  read_credentials (Json (PDict data)) = Returned (strip u, strip p).
Proof.
  unfold submitted, read_credentials. simpl.
  destruct (or_empty (default PNone (assoc "userid" data))); try discriminate.
  intros [= ->]. simpl.
  destruct (or_empty (default PNone (assoc "password" data))); try discriminate.
  intros [= ->]. done.
Qed.

(** A field that submits no text stops the reading of the credentials. *)
Lemma read_credentials_no_text data :
  submitted data "userid" = None \/ submitted data "password" = None ->
  exists e, read_credentials (Json (PDict data)) = Raised e.
Proof.
  unfold submitted, read_credentials. simpl.
  destruct (or_empty (default PNone (assoc "userid" data))) eqn:Hu;
    simpl; try by (intros _; eexists).
  destruct (or_empty (default PNone (assoc "password" data))) eqn:Hp;
    simpl; try by (intros _; eexists).
  by intros [|].
Qed.

Section WithJwt.

Context `{JwtLib}.

Lemma login_post env db now req :
  method req = "POST" -> login env db now req = login_view env db now req.
Proof. unfold login, require_http_methods. by intros ->. Qed.

(** The token [login] issues for [userid] at time [now], when the library
    signs: the claims [sub] and [exp], signed with the configured secret
    under the configured algorithm. *)
Definition issued (env : gmap string string) (now : Z) (userid : string) : string :=
  let p := {| sub := Some userid; exp := Some (now + 7 * 86400) |} in
  compact {| alg := JWT_ALGO env; payload := p;
             signature := sign (JWT_SECRET env) (JWT_ALGO env) p |}.

Lemma jwt_encode_issued env now userid :
  refuses (JWT_SECRET env) (JWT_ALGO env) = None ->
  jwt_encode {| sub := Some userid; exp := Some (now + 7 * 86400) |}
             (JWT_SECRET env) (JWT_ALGO env) = Returned (issued env now userid).
Proof. unfold jwt_encode. by intros ->. Qed.

Lemma jwt_encode_returned p key algo token :
  jwt_encode p key algo = Returned token ->
  refuses key algo = None /\
  token = compact {| alg := algo; payload := p; signature := sign key algo p |}.
Proof. unfold jwt_encode. destruct (refuses key algo); [done|]. by intros [= <-]. Qed.

Lemma issued_valid env now now' userid :
  refuses (JWT_SECRET env) (JWT_ALGO env) = None ->
  now' < now + 7 * 86400 ->
  valid_for env now' (issued env now userid) userid.
Proof.
  intros Hr Hlt. unfold issued.
  eexists. split; [apply parse_compact|].
  split; [by split|]. simpl. split; [|done].
  intros e [= <-]. done.
Qed.

(** The answer of [login] once the credential query has given a row whose
    first column is [user_id]. *)
Lemma login_view_row env db now req data u p user_id cols rest :
  body req = Json (PDict data) ->
  submitted data "userid" = Some u ->
  submitted data "password" = Some p ->
  strip u <> "" -> strip p <> "" ->
  connect db = Returned () ->
  execute db SelectUser [strip u; strip p] = Returned ((user_id :: cols) :: rest) ->
  login_view env db now req =
    (token ← jwt_encode {| sub := Some (strip u); exp := Some (now + seven_days) |}
                        (JWT_SECRET env) (JWT_ALGO env);
     json_response
       [("status", PStr "success");
        ("message", PStr "Login successful");
        ("user_id", user_id);
        ("token", PStr token)] 200,
     [Connected; Executed SelectUser [strip u; strip p]]).
Proof.
  intros Hb Hu Hp Hune Hpne Hc He. unfold login_view.
  rewrite Hb, (read_credentials_object _ _ _ Hu Hp).
  apply truthy_true in Hune, Hpne. rewrite Hune, Hpne. simpl.
  unfold run_query. by rewrite Hc, He.
Qed.

Lemma json_response_login user_id token :
  json_response
    [("status", PStr "success");
     ("message", PStr "Login successful");
     ("user_id", user_id);
     ("token", PStr token)] 200 =
  if encodable user_id
  then Returned (JsonResponse
         [("status", PStr "success");
          ("message", PStr "Login successful");
          ("user_id", user_id);
          ("token", PStr token)] 200)
  else Raised not_serializable.
Proof. unfold json_response. simpl. by destruct (encodable user_id). Qed.

(** C1, as the code has it.  Take a POST to [login] whose body is a JSON
    object with the strings [u] and [p] as userid and password, neither
    empty once trimmed, and a database whose credential query, asked for
    the trimmed pair, returns a row.  When the token library does not
    refuse the configured secret and algorithm and the first column of the
    row can be written as JSON, [login] answers 200 with a token.  The
    token is what [jwt.encode] returns for the claims [sub] = the trimmed
    userid and [exp] = now + 7 days, under the configured secret and
    algorithm.  Presented as ["Bearer " ++ token] at any time before that
    expiry, the token decodes to those claims, [jwt_required] passes the
    request on with the trimmed userid attached, and [verify_token] answers
    with that userid. *)
Theorem login_token_validates (env : gmap string string) (db : database)
    (now : Z) (req : request) (data : list (string * pyval))
    (u p : string) (user_id : pyval) (cols : row) (rest : list row) :
  method req = "POST" ->
  body req = Json (PDict data) ->
  submitted data "userid" = Some u ->
  submitted data "password" = Some p ->
  strip u <> "" -> strip p <> "" ->
  connect db = Returned () ->
  execute db SelectUser [strip u; strip p] = Returned ((user_id :: cols) :: rest) ->
  refuses (JWT_SECRET env) (JWT_ALGO env) = None ->
  encodable user_id = true ->
  exists token,
    login env db now req =
      (Returned (JsonResponse
         [("status", PStr "success");
          ("message", PStr "Login successful");
          ("user_id", user_id);
          ("token", PStr token)] 200),
       [Connected; Executed SelectUser [strip u; strip p]]) /\
    jwt_encode {| sub := Some (strip u); exp := Some (now + 7 * 86400) |}
               (JWT_SECRET env) (JWT_ALGO env) = Returned token /\
    forall now' req',
      now' < now + 7 * 86400 ->
      authorization req' = Some ("Bearer " +:+ token) ->
      _decode env now' token =
        Returned {| sub := Some (strip u); exp := Some (now + 7 * 86400) |} /\
      (forall view, jwt_required env now' view req' = view (set_userid req' (strip u))) /\
      (method req' = "GET" ->
       verify_token env now' req' =
         no_db (Returned (JsonResponse
           [("status", PStr "success"); ("userid", PStr (strip u))] 200))).
Proof.
  intros Hm Hb Hu Hp Hune Hpne Hc He Href Henc.
  exists (issued env now (strip u)).
  split; [|split; [by apply jwt_encode_issued|]].
  - rewrite login_post by done.
    rewrite (login_view_row _ _ _ _ _ _ _ _ _ _ Hb Hu Hp Hune Hpne Hc He).
    unfold seven_days. rewrite (jwt_encode_issued _ _ _ Href). simpl.
    by rewrite json_response_login, Henc.
  - intros now' req' Hlt Hh.
    pose proof (issued_valid env now now' (strip u) Href Hlt) as Hv.
    split; [|split].
    + unfold issued in *.
      rewrite (_decode_well_signed env now' _ _ (parse_compact _)) by (by split).
      simpl. destruct (Z.leb_spec (now + 7 * 86400) now'); [lia|done].
    + intros view. by apply (jwt_required_valid env now' view req' _ _ Hh).
    + intros Hg. unfold verify_token.
      rewrite (jwt_required_valid env now' _ req' _ _ Hh Hv).
      unfold require_http_methods. simpl. by rewrite Hg.
Qed.

(** C5, as the code has it.  For a POST to [login]:
    - a body that is not empty and is not JSON is answered with 400
      ["Invalid JSON"];
    - an empty body is read as the empty object, and so is answered with
      400 ["userid & password required"];
    - a body that is JSON but not an object is answered with 400 ["Invalid
      JSON"];
    - an object in which userid or password holds a value that is neither
      a string nor counted as false (a number other than zero, say) is
      answered with 400 ["Invalid JSON"], whatever the other field holds;
    - an object in which each of the two fields is a string, is absent or
      holds a value counted as false, and in which userid or password is
      empty once trimmed, is answered with 400 ["userid & password
      required"], and the database is not touched;
    - otherwise the two trimmed fields are the parameters of the credential
      query: a failure to connect or to run it is answered with 500
      ["DB error: ..."], and no row, or an empty first row, with 401
      ["Invalid credentials"]. *)
Theorem login_failures (env : gmap string string) (db : database) (now : Z)
    (req : request) :
  method req = "POST" ->
  (body req = NotJson ->
   login env db now req = no_db (Returned (detail "Invalid JSON" 400)))
  /\
  (body req = EmptyBody ->
   login env db now req = no_db (Returned (detail "userid & password required" 400)))
  /\
  (forall v, body req = Json v -> (forall items, v <> PDict items) ->
   login env db now req = no_db (Returned (detail "Invalid JSON" 400)))
  /\
  (forall data,
     body req = Json (PDict data) ->
     submitted data "userid" = None \/ submitted data "password" = None ->
     login env db now req = no_db (Returned (detail "Invalid JSON" 400)))
  /\
  (forall data u p,
     body req = Json (PDict data) ->
     submitted data "userid" = Some u ->
     submitted data "password" = Some p ->
     (strip u = "" \/ strip p = "" ->
      login env db now req =
        (Returned (detail "userid & password required" 400), []))
     /\
     (strip u <> "" -> strip p <> "" ->
      (forall e, connect db = Raised e ->
         login env db now req =
           (Returned (detail ("DB error: " +:+ exn_str e) 500), [Connected]))
      /\
      (forall e, connect db = Returned () ->
         execute db SelectUser [strip u; strip p] = Raised e ->
         login env db now req =
           (Returned (detail ("DB error: " +:+ exn_str e) 500),
            [Connected; Executed SelectUser [strip u; strip p]]))
      /\
      (forall rows, connect db = Returned () ->
         execute db SelectUser [strip u; strip p] = Returned rows ->
         head rows = None \/ head rows = Some [] ->
         login env db now req =
           (Returned (detail "Invalid credentials" 401),
            [Connected; Executed SelectUser [strip u; strip p]])))).
Proof.
  intros Hm. rewrite login_post by done. unfold login_view.
  split; [by intros ->|]. split; [by intros ->|].
  split; [intros v -> Hv; by destruct v; try done; destruct (Hv items)|].
  split.
  { intros data -> Hno. by destruct (read_credentials_no_text data Hno) as [e ->]. }
  intros data u p -> Hu Hp. rewrite (read_credentials_object _ _ _ Hu Hp).
  split.
  - intros [->| ->]; simpl; [done|]. by rewrite orb_true_r.
  - intros Hune Hpne. apply truthy_true in Hune, Hpne.
    rewrite Hune, Hpne. simpl. unfold run_query.
    split; [|split].
    + by intros e ->.
    + by intros e -> ->.
    + by intros rows -> -> [->| ->].
Qed.

End WithJwt.

(** A stored pair does not always get its token.  With an algorithm the
    token library does not implement, [login] finds the row and then
    raises; with a row whose id is a [bytes] value, the token is made and
    the answer cannot be written. *)
Lemma login_match_without_token :
  let db := {| connect := Returned ();
               execute := fun _ _ => Returned [[PStr "alice"; PStr "wonder"]] |} in
  let raw := {| connect := Returned ();
                execute := fun _ _ => Returned [[PBytes "alice"; PStr "wonder"]] |} in
  let req := {| method := "POST"; authorization := None;
                body := Json (PDict [("userid", PStr "alice");
                                     ("password", PStr "wonder")]);
                GET := []; userid := None |} in
  login (H := ToyJwt.toy) {["JWT_ALGO" := "HS999"]} db 0 req =
    (Raised (Exn NotImplementedError "Algorithm not supported"),
     [Connected; Executed SelectUser ["alice"; "wonder"]]) /\
  login (H := ToyJwt.toy) ∅ raw 0 req =
    (Raised (Exn TypeError "Object of type bytes is not JSON serializable"),
     [Connected; Executed SelectUser ["alice"; "wonder"]]).
Proof. split; by vm_compute. Qed.

(** An empty body is not JSON, and [login] does not answer it with
    ["Invalid JSON"]: it answers as it does for the object [{}]. *)
Lemma login_empty_body_not_invalid_json :
  let db := {| connect := Returned (); execute := fun _ _ => Returned [] |} in
  let req := {| method := "POST"; authorization := None; body := EmptyBody;
                GET := []; userid := None |} in
  is_json (body req) = false /\
  login (H := ToyJwt.toy) ∅ db 0 req =
    no_db (Returned (detail "userid & password required" 400)) /\
  login (H := ToyJwt.toy) ∅ db 0 req <>
    no_db (Returned (detail "Invalid JSON" 400)).
Proof. by vm_compute. Qed.

End Login.

(** ** Pairing and the configured secrets *)

Module Pairing.

Import Views PyFacts.

Lemma py_ne_str_spec s t : py_ne_str (PStr s) t = true <-> s <> t.
Proof.
  simpl. rewrite negb_true_iff. destruct (String.eqb_spec s t); split; congruence.
Qed.

(** The answers [pair_check] can give once the password has been
    accepted. *)
Definition past_the_password (r : reply) : Prop :=
  r = no_db (Returned (detail "SyncService.exe not found" 404)) \/
  r = no_db (Returned (JsonResponse
        [("status", PStr "success");
         ("message", PStr "SyncService already running");
         ("pair_successful", PBool true)] 200)) \/
  r = no_db (Returned (JsonResponse
        [("status", PStr "success");
         ("message", PStr "SyncService launched successfully");
         ("pair_successful", PBool true)] 200)) \/
  exists e, r = no_db (Returned (detail ("Failed to start sync service: " +:+ exn_str e) 500)).

(** C6. [pair_check] compares the submitted password with the configured
    one character by character: any string other than the configured
    password is answered with 401 ["Invalid password"], whatever the host
    looks like, and the configured password itself is never answered so: the
    handler goes on to look for the executable. *)
Theorem pair_check_exact (env : gmap string string) (os : host) (req : request)
    (data : list (string * pyval)) (s : string) :
  method req = "POST" ->
  body req = Json (PDict data) ->
  assoc "password" data = Some (PStr s) ->
  (s <> PAIR_PASSWORD env ->
   pair_check env os req = no_db (Returned (detail "Invalid password" 401)))
  /\
  (s = PAIR_PASSWORD env ->
   pair_check env os req <> no_db (Returned (detail "Invalid password" 401)) /\
   past_the_password (pair_check env os req)).
Proof.
  intros Hm Hb Hpw. unfold pair_check, require_http_methods. rewrite Hm. simpl.
  unfold pair_check_view. rewrite Hb. simpl. rewrite Hpw. simpl.
  split.
  - intros Hne. apply String.eqb_neq in Hne. by rewrite Hne.
  - intros ->. rewrite String.eqb_refl. simpl.
    unfold past_the_password.
    destruct (exe_exists os); simpl; [|split; [done|by left]].
    destruct (existsb _ (process_names os)); [split; [done|right; by left]|].
    destruct (popen os) as [[]|e]; (split; [done|]).
    + right. right. by left.
    + right. right. right. by exists e.
Qed.

(** C9, as the code has it.  The signing secret is never empty: the
    default stands in when [JWT_SECRET] is unset and when it is empty.  The
    pairing password is the default when [PAIR_PASSWORD] is unset and the
    value of the variable when it is set, so it is empty exactly when the
    variable is set to the empty string. *)
Theorem configured_secrets (env : gmap string string) :
  JWT_SECRET env <> "" /\
  (env !! "JWT_SECRET" = None \/ env !! "JWT_SECRET" = Some "" ->
   JWT_SECRET env = "dev-secret-change-me") /\
  (forall v, env !! "JWT_SECRET" = Some v -> v <> "" -> JWT_SECRET env = v) /\
  (env !! "PAIR_PASSWORD" = None -> PAIR_PASSWORD env = "IMC-MOBILE") /\
  (forall v, env !! "PAIR_PASSWORD" = Some v -> PAIR_PASSWORD env = v) /\
  (PAIR_PASSWORD env = "" <-> env !! "PAIR_PASSWORD" = Some "").
Proof.
  unfold JWT_SECRET, PAIR_PASSWORD, getenv.
  destruct (env !! "JWT_SECRET") as [[|c s]|] eqn:Hj;
    destruct (env !! "PAIR_PASSWORD") as [[|d t]|] eqn:Hp; simpl;
    repeat split; try done; try (intros; simplify_eq; done);
    try (intros [?|?]; simplify_eq; done).
Qed.

(** With [PAIR_PASSWORD] set to the empty string the pairing password is
    empty, and the empty password is accepted. *)
Lemma empty_pair_password :
  let env : gmap string string := {[ "PAIR_PASSWORD" := "" ]} in
  let os := {| exe_exists := false; process_names := []; popen := Returned () |} in
  let req := {| method := "POST"; authorization := None;
                body := Json (PDict [("password", PStr "")]);
                GET := []; userid := None |} in
  env !! "PAIR_PASSWORD" = Some "" /\
  PAIR_PASSWORD env = "" /\
  pair_check env os req = no_db (Returned (detail "SyncService.exe not found" 404)).
Proof. by vm_compute. Qed.

(** The same environment, as [load_env] leaves it after a file with the
    line [PAIR_PASSWORD=]. *)
Lemma empty_pair_password_from_file :
  exists st,
    SyncService.load_env ∅ (Some "PAIR_PASSWORD=") = Returned st /\
    PAIR_PASSWORD (SyncService.environ st) = "".
Proof. eexists. split; [reflexivity|by vm_compute]. Qed.

End Pairing.

(** ** The query endpoints *)

Module Queries.

Import Views PyFacts Auth.

Inductive endpoint := Items | DineTables | UserSettings | DineCategories.

(** The body of each endpoint, as the source defines it. *)
Definition view_of (e : endpoint) : database -> request -> reply :=
  match e with
  | Items => get_items_view
  | DineTables => get_dine_tables_view
  | UserSettings => get_user_settings_view
  | DineCategories => get_dine_categories_view
  end.

(** The interface table of the specification: the key of the optional
    filter, the two statements, the names of the columns in the order of
    the [SELECT], and the name of the collection in the answer. *)
Definition filter_key (e : endpoint) : string :=
  match e with
  | Items => "item_code"
  | DineTables => "tableno"
  | UserSettings => "uid"
  | DineCategories => "catagorycode"
  end.

Definition q_one (e : endpoint) : sql :=
  match e with
  | Items => SelectItem
  | DineTables => SelectTable
  | UserSettings => SelectSetting
  | DineCategories => SelectCategory
  end.

Definition q_all (e : endpoint) : sql :=
  match e with
  | Items => SelectItems
  | DineTables => SelectTables
  | UserSettings => SelectSettings
  | DineCategories => SelectCategories
  end.

Definition columns (e : endpoint) : list string :=
  match e with
  | Items =>
      ["item_code"; "item_name"; "rate"; "rate1"; "rate2"; "kitchen";
       "activity"; "image"; "category"; "taxper"; "longname"]
  | DineTables => ["tableno"; "description"; "section"]
  | UserSettings => ["uid"; "code"]
  | DineCategories => ["catagorycode"; "name"]
  end.

Definition collection (e : endpoint) : string :=
  match e with
  | Items => "items"
  | DineTables => "tables"
  | UserSettings => "settings"
  | DineCategories => "categories"
  end.

Definition record_of (e : endpoint) : row -> outcome pyval :=
  match e with
  | Items => item_record
  | DineTables => table_record
  | UserSettings => setting_record
  | DineCategories => category_record
  end.

(** A row under the names of its columns, position by position. *)
Definition named_record (names : list string) (r : row) : pyval :=
  PDict (zip names r).

(** The statement an endpoint is asked to run, and its parameters: the
    filtered one when the key is given a non-empty value, the unfiltered one
    otherwise. *)
Definition asked (e : endpoint) (req : request) : sql * list string :=
  match querydict_get (GET req) (filter_key e) with
  | Some k => if decide (k = "") then (q_all e, []) else (q_one e, [k])
  | None => (q_all e, [])
  end.

Definition success (e : endpoint) (rows : list row) : response :=
  JsonResponse
    [("status", PStr "success");
     ("count", PInt (Z.of_nat (length rows)));
     (collection e, PList (map (named_record (columns e)) rows))] 200.

Definition failure (ex : exn) : response :=
  JsonResponse [("status", PStr "error"); ("detail", PStr (exn_str ex))] 500.

(** A row has the columns its endpoint reads. *)
Definition complete (e : endpoint) (r : row) : Prop :=
  (length (columns e) <= length r)%nat.

(** The columns its endpoint reads can be written as JSON. *)
Definition writable (e : endpoint) (r : row) : bool :=
  forallb encodable (take (length (columns e)) r).

Lemma view_of_query_view e :
  view_of e = query_view (filter_key e) (q_one e) (q_all e) (record_of e) (collection e).
Proof. by destruct e. Qed.

(** Every endpoint runs the statement it is asked, and only that. *)
Lemma view_of_asked e db req :
  view_of e db req =
    let '(fetched, tr) := run_query db (asked e req).1 (asked e req).2 in
    match
      rows ← fetched;
      data ← mapM (record_of e) rows;
      json_response
        [("status", PStr "success");
         ("count", PInt (Z.of_nat (length data)));
         (collection e, PList data)] 200
    with
    | Returned r => (Returned r, tr)
    | Raised ex => (Returned (failure ex), tr)
    end.
Proof.
  rewrite view_of_query_view. unfold query_view, asked.
  destruct (querydict_get (GET req) (filter_key e)) as [[|c k]|]; done.
Qed.

(** A record can be written when the columns it names can. *)
Lemma encodable_named_record names : forall r,
  encodable (named_record names r) = forallb encodable (take (length names) r).
Proof.
  unfold named_record.
  induction names as [|n names IH]; intros [|v r]; simpl; try done.
  f_equal. apply IH.
Qed.

Lemma encodable_records e rows :
  forallb encodable (map (named_record (columns e)) rows) = forallb (writable e) rows.
Proof.
  induction rows as [|r rows IH]; [done|].
  cbn [map forallb]. by rewrite IH, encodable_named_record.
Qed.

Lemma forallb_writable e rows :
  Forall (fun r => writable e r = true) rows -> forallb (writable e) rows = true.
Proof. induction 1 as [|r rows Hr _ IH]; [done|]. simpl. by rewrite Hr, IH. Qed.

(** The answer with the records of the rows is written exactly when every
    row can be. *)
Lemma json_response_success e rows :
  json_response
    [("status", PStr "success");
     ("count", PInt (Z.of_nat (length (map (named_record (columns e)) rows))));
     (collection e, PList (map (named_record (columns e)) rows))] 200 =
  if forallb (writable e) rows then Returned (success e rows) else Raised not_serializable.
Proof.
  unfold json_response, success. rewrite length_map.
  change (encodable (PDict ?d)) with
    (forallb (fun kv : string * pyval => let (_, x) := kv in encodable x) d).
  cbn [forallb encodable andb].
  change (forallb encodable (map (named_record (columns e)) rows) && true)
    with (forallb encodable (map (named_record (columns e)) rows) && true).
  rewrite andb_true_r, encodable_records.
  by destruct (forallb (writable e) rows).
Qed.

Lemma record_of_named e r :
  complete e r ->
  record_of e r = Returned (named_record (columns e) r).
Proof.
  unfold complete. destruct e; simpl; intros Hlen.
  - do 11 (destruct r as [|? r]; [simpl in Hlen; lia|]). done.
  - do 3 (destruct r as [|? r]; [simpl in Hlen; lia|]). done.
  - do 2 (destruct r as [|? r]; [simpl in Hlen; lia|]). done.
  - do 2 (destruct r as [|? r]; [simpl in Hlen; lia|]). done.
Qed.

Lemma mapM_record_of e rows :
  Forall (complete e) rows ->
  mapM (record_of e) rows = Returned (map (named_record (columns e)) rows).
Proof.
  induction 1 as [|r rows Hr _ IH]; simpl; [done|].
  by rewrite (record_of_named e r Hr), IH.
Qed.

(** The body of an endpoint always answers: whatever is raised while it
    talks to the database or builds the records becomes an answer. *)
Lemma view_of_answers e db req :
  exists resp tr, view_of e db req = (Returned resp, tr).
Proof.
  rewrite view_of_asked.
  destruct (run_query db (asked e req).1 (asked e req).2) as [fetched tr].
  destruct (_ ← fetched; _) as [r|ex]; by eexists _, _.
Qed.

Section WithJwt.

Context `{JwtLib}.

(** Each endpoint, as the source defines it. *)
Definition handler_of (e : endpoint) (env : gmap string string) (now : Z)
  (db : database) : request -> reply :=
  match e with
  | Items => get_items env now db
  | DineTables => get_dine_tables env now db
  | UserSettings => get_user_settings env now db
  | DineCategories => get_dine_categories env now db
  end.

Lemma handler_of_protected e env now db :
  handler_of e env now db = protected_get env now (view_of e db).
Proof. by destruct e. Qed.

(** A GET with a valid token reaches the body of the endpoint. *)
Lemma handler_of_valid e env now db req token u :
  method req = "GET" ->
  authorization req = Some ("Bearer " +:+ token) ->
  valid_for env now token u ->
  handler_of e env now db req = view_of e db (set_userid req u).
Proof.
  intros Hm Hh Hv. rewrite handler_of_protected. unfold protected_get.
  rewrite (jwt_required_valid env now _ req token u Hh Hv).
  unfold require_http_methods. simpl. by rewrite Hm.
Qed.

Lemma asked_set_userid e req u : asked e (set_userid req u) = asked e req.
Proof. done. Qed.

Lemma handler_of_success e env now db req token u rows :
  method req = "GET" ->
  authorization req = Some ("Bearer " +:+ token) ->
  valid_for env now token u ->
  connect db = Returned () ->
  execute db (asked e req).1 (asked e req).2 = Returned rows ->
  Forall (complete e) rows ->
  Forall (fun r => writable e r = true) rows ->
  handler_of e env now db req =
    (Returned (success e rows),
     [Connected; Executed (asked e req).1 (asked e req).2]).
Proof.
  intros Hm Hh Hv Hc He Hrows Hw.
  rewrite (handler_of_valid e env now db req token u Hm Hh Hv).
  rewrite view_of_asked, asked_set_userid. unfold run_query. rewrite Hc, He.
  simpl. rewrite (mapM_record_of e rows Hrows). simpl.
  by rewrite json_response_success, (forallb_writable e rows Hw).
Qed.

(** C3, as the code has it.  On every query endpoint, a GET with a valid
    token whose query succeeds with rows that have the columns of the
    statement, all of them values that can be written as JSON, is answered
    200 with [status] ["success"], [count] the number of rows the query
    returned, and the collection holding one record per row, in the order
    of the rows, each record giving the columns of its row under their
    names, position by position.  The endpoint connects once and runs one
    statement. *)
Theorem query_success (e : endpoint) (env : gmap string string) (now : Z)
    (db : database) (req : request) (token u : string) (rows : list row) :
  method req = "GET" ->
  authorization req = Some ("Bearer " +:+ token) ->
  valid_for env now token u ->
  connect db = Returned () ->
  execute db (asked e req).1 (asked e req).2 = Returned rows ->
  Forall (complete e) rows ->
  Forall (fun r => writable e r = true) rows ->
  handler_of e env now db req =
    (Returned (success e rows),
     [Connected; Executed (asked e req).1 (asked e req).2]).
Proof. apply handler_of_success. Qed.

(** C4. On every query endpoint, a GET with a valid token is answered 500
    with [status] ["error"] and the message of the exception as [detail]
    when the connection fails and when the statement or the fetch fails.
    The body of an endpoint never lets an exception out, whatever the
    database does, and neither does the endpoint for a request with a valid
    token. *)
Theorem query_db_failure (e : endpoint) (env : gmap string string) (now : Z) :
  (forall db req token u ex,
     method req = "GET" ->
     authorization req = Some ("Bearer " +:+ token) ->
     valid_for env now token u ->
     (connect db = Raised ex ->
      handler_of e env now db req = (Returned (failure ex), [Connected]))
     /\
     (connect db = Returned () ->
      execute db (asked e req).1 (asked e req).2 = Raised ex ->
      handler_of e env now db req =
        (Returned (failure ex),
         [Connected; Executed (asked e req).1 (asked e req).2])))
  /\
  (forall db req, exists resp tr, view_of e db req = (Returned resp, tr))
  /\
  (forall db req token u,
     authorization req = Some ("Bearer " +:+ token) ->
     valid_for env now token u ->
     exists resp tr, handler_of e env now db req = (Returned resp, tr)).
Proof.
  split; [|split].
  - intros db req token u ex Hm Hh Hv.
    rewrite (handler_of_valid e env now db req token u Hm Hh Hv).
    rewrite view_of_asked, asked_set_userid. unfold run_query.
    split; [by intros ->|by intros -> ->].
  - apply view_of_answers.
  - intros db req token u Hh Hv. rewrite handler_of_protected.
    unfold protected_get.
    rewrite (jwt_required_valid env now _ req token u Hh Hv).
    unfold require_http_methods.
    destruct (existsb _ _); [apply view_of_answers|by eexists _, _].
Qed.

(** The query string without the values given for [k]. *)
Definition without_key (k : string) (q : list (string * string))
  : list (string * string) :=
  filter (fun kv => kv.1 <> k) q.

Definition set_GET (req : request) (q : list (string * string)) : request :=
  {| method := method req; authorization := authorization req;
     body := body req; GET := q; userid := userid req |}.

Lemma querydict_get_without k q : querydict_get (without_key k q) k = None.
Proof.
  unfold querydict_get, without_key.
  assert (omap (fun kv : string * string =>
                  if String.eqb kv.1 k then Some kv.2 else None)
               (filter (fun kv => kv.1 <> k) q) = []) as ->; [|done].
  induction q as [|[k' v] q IH]; [done|].
  destruct (decide (k' = k)) as [->|Hne].
  - by rewrite filter_cons_False by (simpl; tauto).
  - rewrite filter_cons_True by done. simpl.
    apply String.eqb_neq in Hne. by rewrite Hne.
Qed.

Lemma view_of_same_asked e db req req' :
  asked e req = asked e req' -> view_of e db req = view_of e db req'.
Proof. intros Ha. rewrite !view_of_asked. by rewrite Ha. Qed.

Lemma jwt_required_ext env now view view' req req' :
  authorization req = authorization req' ->
  (forall u, view (set_userid req u) = view' (set_userid req' u)) ->
  jwt_required env now view req = jwt_required env now view' req'.
Proof.
  intros Ha Hv. unfold jwt_required, _extract_token. rewrite Ha.
  destruct (if negb _ then _ else _) as [o|ex]; [|done].
  destruct (negb (truthy (default "" o))); [done|].
  destruct (_ ← _decode env now (default "" o); _) as [u|ex]; [apply Hv|done].
Qed.

(** C10. On every query endpoint, a filter given with the empty string
    as its value is the filter left out: the statement asked is the
    unfiltered one, the body of the endpoint and the endpoint itself answer
    the request as they answer it without the parameter, and when the
    unfiltered statement succeeds, with rows that have its columns and can
    be written as JSON, the answer holds every row it returned. *)
Theorem empty_filter_is_absent (e : endpoint) (env : gmap string string)
    (now : Z) (db : database) (req : request) :
  querydict_get (GET req) (filter_key e) = Some "" ->
  let req' := set_GET req (without_key (filter_key e) (GET req)) in
  querydict_get (GET req') (filter_key e) = None /\
  asked e req = (q_all e, []) /\
  view_of e db req = view_of e db req' /\
  handler_of e env now db req = handler_of e env now db req' /\
  (forall token u rows,
     method req = "GET" ->
     authorization req = Some ("Bearer " +:+ token) ->
     valid_for env now token u ->
     connect db = Returned () ->
     execute db (q_all e) [] = Returned rows ->
     Forall (complete e) rows ->
     Forall (fun r => writable e r = true) rows ->
     handler_of e env now db req =
       (Returned (success e rows), [Connected; Executed (q_all e) []])).
Proof.
  intros Hq req'.
  assert (Hnone : querydict_get (GET req') (filter_key e) = None)
    by apply querydict_get_without.
  assert (Hasked : asked e req = (q_all e, [])) by (unfold asked; by rewrite Hq).
  assert (Hasked' : asked e req' = (q_all e, [])) by (unfold asked; by rewrite Hnone).
  repeat split; try done.
  - apply view_of_same_asked. by rewrite Hasked, Hasked'.
  - rewrite !handler_of_protected. unfold protected_get.
    apply jwt_required_ext; [done|]. intros u.
    unfold require_http_methods. simpl.
    match goal with |- (if ?b then _ else _) = _ => destruct b end; [|done].
    apply view_of_same_asked. by rewrite !asked_set_userid, Hasked, Hasked'.
  - intros token u rows Hm Hh Hv Hc He Hrows Hw.
    rewrite (handler_of_success e env now db req token u rows); rewrite ?Hasked; done.
Qed.

End WithJwt.

End Queries.

(** ** Scenarios

    The theorems above, applied to concrete requests, with [ToyJwt.toy] as
    the token library. *)

Module Scenarios.

Import SyncService Views Auth Login Pairing Queries.

#[local] Existing Instance ToyJwt.toy.

(** A store with one user, two tables and no item with code ["ABC"]. *)
Definition store : database := {|
  connect := Returned ();
  execute := fun q params =>
    match q with
    | SelectUser =>
        if decide (params = ["alice"; "s3cret"])
        then Returned [[PStr "alice"; PStr "s3cret"]]
        else Returned []
    | SelectTables =>
        Returned [[PStr "T01"; PStr "Window"; PStr "A"];
                  [PStr "T02"; PStr "Door"; PStr "B"]]
    | SelectTable =>
        if decide (params = ["T02"])
        then Returned [[PStr "T02"; PStr "Door"; PStr "B"]]
        else Returned []
    | SelectCategories => Raised (Exn OtherException "Table 'dine_catagory' not found")
    | _ => Returned []
    end
|}.

(** A store that cannot be reached. *)
Definition unreachable : database := {|
  connect := Raised (Exn OtherException "Database server not found");
  execute := fun _ _ => Returned []
|}.

Definition post (b : http_body) : request :=
  {| method := "POST"; authorization := None; body := b; GET := []; userid := None |}.

Definition get (auth : option string) (q : list (string * string)) : request :=
  {| method := "GET"; authorization := auth; body := EmptyBody; GET := q; userid := None |}.

Definition credentials (u p : string) : list (string * pyval) :=
  [("userid", PStr u); ("password", PStr p)].

(** The token alice is issued at time 1000. *)
Definition alice_token : string := issued ∅ 1000 "alice".

(** The same token, taken apart. *)
Definition alice_jws : jws :=
  let claims := {| sub := Some "alice"; exp := Some (1000 + 7 * 86400) |} in
  {| alg := JWT_ALGO ∅; payload := claims;
     signature := sign (JWT_SECRET ∅) (JWT_ALGO ∅) claims |}.

Lemma alice_token_valid now : now < 1000 + 7 * 86400 -> valid_for ∅ now alice_token "alice".
Proof. apply issued_valid. by vm_compute. Defined.

(** Alice logs in with blanks around her userid; an hour later her token
    is accepted and names her. *)
Lemma login_token_validates_witness :
  let req := post (Json (PDict (credentials "  alice " "s3cret"))) in
  (method req = "POST" /\ strip "  alice " = "alice") /\
  exists token,
    (login ∅ store 1000 req).1 =
      Returned (JsonResponse
        [("status", PStr "success"); ("message", PStr "Login successful");
         ("user_id", PStr "alice"); ("token", PStr token)] 200) /\
    verify_token ∅ 4600 (get (Some ("Bearer " +:+ token)) []) =
      no_db (Returned (JsonResponse
        [("status", PStr "success"); ("userid", PStr "alice")] 200)).
Proof.
  intros req. split; [by vm_compute|].
  destruct (login_token_validates ∅ store 1000 req
              (credentials "  alice " "s3cret") "  alice " "s3cret"
              (PStr "alice") [PStr "s3cret"] [])
    as (token & Hlogin & _ & Hvalid);
    [reflexivity | reflexivity | reflexivity | reflexivity
    | by vm_compute | by vm_compute | reflexivity | reflexivity
    | reflexivity | reflexivity |].
  exists token. split; [by rewrite Hlogin|].
  destruct (Hvalid 4600 (get (Some ("Bearer " +:+ token)) [])) as (_ & _ & Hverify);
    [lia | reflexivity |].
  apply Hverify. reflexivity.
Defined.

(** A token signed with the configured secret that names no subject. *)
Definition anonymous_token : string :=
  let claims := {| sub := None; exp := Some (1000 + 7 * 86400) |} in
  compact {| alg := JWT_ALGO ∅; payload := claims;
             signature := sign (JWT_SECRET ∅) (JWT_ALGO ∅) claims |}.

(** C2. Validation has a fourth outcome besides the three 401 answers and
    the call of the view.  A token that is well signed and has not expired
    but names no subject is not answered at all: the [KeyError] of
    [payload["sub"]] leaves [jwt_required], and with it every protected
    endpoint. *)
Lemma jwt_required_subjectless_token :
  let view := fun req : request =>
    no_db (Returned (JsonResponse [("userid", PStr (default "" (userid req)))] 200)) in
  let req := get (Some ("Bearer " +:+ anonymous_token)) [] in
  _decode ∅ 2000 anonymous_token =
    Returned {| sub := None; exp := Some (1000 + 7 * 86400) |} /\
  jwt_required ∅ 2000 view req = no_db (Raised (Exn KeyError "'sub'")) /\
  verify_token ∅ 2000 req = no_db (Raised (Exn KeyError "'sub'")) /\
  get_items ∅ 2000 store req = no_db (Raised (Exn KeyError "'sub'")).
Proof. by vm_compute. Qed.

(** The four outcomes of validation, one request each. *)
Lemma jwt_required_partition_witness :
  let view := fun req : request =>
    no_db (Returned (JsonResponse [("userid", PStr (default "" (userid req)))] 200)) in
  let forged := compact {| alg := "HS256";
                           payload := {| sub := Some "alice"; exp := Some 9999999 |};
                           signature := "" |} in
  jwt_required ∅ 1000 view (get None []) = no_db (Returned (detail "Token missing" 401)) /\
  jwt_required ∅ 1000 view (get (Some "Bearer ") []) =
    no_db (Returned (detail "Token missing" 401)) /\
  jwt_required ∅ (1000 + 7 * 86400 + 1) view (get (Some ("Bearer " +:+ alice_token)) []) =
    no_db (Returned (detail "Token expired" 401)) /\
  jwt_required ∅ 1000 view (get (Some "Bearer not.a.token") []) =
    no_db (Returned (detail "Invalid token" 401)) /\
  jwt_required ∅ 1000 view (get (Some ("Bearer " +:+ forged)) []) =
    no_db (Returned (detail "Invalid token" 401)) /\
  jwt_required ∅ 2000 view (get (Some ("Bearer " +:+ alice_token)) []) =
    no_db (Returned (JsonResponse [("userid", PStr "alice")] 200)).
Proof.
  intros view forged. split; [|split; [|split; [|split; [|split]]]].
  - destruct (jwt_required_partition ∅ 1000 view (get None [])) as (Hmissing & _).
    apply Hmissing. by intros t _.
  - destruct (jwt_required_partition ∅ 1000 view (get (Some "Bearer ") []))
      as (Hmissing & _).
    apply Hmissing. intros t Ht [= Heq]. by destruct t.
  - destruct (jwt_required_partition ∅ (1000 + 7 * 86400 + 1) view
                (get (Some ("Bearer " +:+ alice_token)) [])) as (_ & Hbearer & _).
    destruct (Hbearer alice_token eq_refl) as (Hexpired & _); [by vm_compute|].
    apply (Hexpired alice_jws (1000 + 7 * 86400));
      [apply parse_compact | by vm_compute | reflexivity | lia].
  - destruct (jwt_required_partition ∅ 1000 view (get (Some "Bearer not.a.token") []))
      as (_ & Hbearer & _).
    destruct (Hbearer "not.a.token" eq_refl) as (_ & Hinvalid & _); [done|].
    apply Hinvalid. left. by vm_compute.
  - destruct (jwt_required_partition ∅ 1000 view (get (Some ("Bearer " +:+ forged)) []))
      as (_ & Hbearer & _).
    destruct (Hbearer forged eq_refl) as (_ & Hinvalid & _); [by vm_compute|].
    apply Hinvalid. right. eexists. split; [apply parse_compact|].
    intros (_ & _ & Hsig). by vm_compute in Hsig.
  - destruct (jwt_required_partition ∅ 2000 view
                (get (Some ("Bearer " +:+ alice_token)) [])) as (_ & Hbearer & _).
    destruct (Hbearer alice_token eq_refl) as (_ & _ & Hvalid); [by vm_compute|].
    apply Hvalid, alice_token_valid. lia.
Defined.

(** [GET /items/?item_code=ABC] with a valid token and no matching row,
    and [GET /dine-tables/] with two rows: two records, under the names of
    the columns, in the order of the rows. *)
Lemma query_success_witness :
  let req := get (Some ("Bearer " +:+ alice_token)) [("item_code", "ABC")] in
  let all := get (Some ("Bearer " +:+ alice_token)) [] in
  asked Items req = (SelectItem, ["ABC"]) /\
  get_items ∅ 2000 store req =
    (Returned (JsonResponse
       [("status", PStr "success"); ("count", PInt 0); ("items", PList [])] 200),
     [Connected; Executed SelectItem ["ABC"]]) /\
  get_dine_tables ∅ 2000 store all =
    (Returned (JsonResponse
       [("status", PStr "success"); ("count", PInt 2);
        ("tables", PList
           [PDict [("tableno", PStr "T01"); ("description", PStr "Window");
                   ("section", PStr "A")];
            PDict [("tableno", PStr "T02"); ("description", PStr "Door");
                   ("section", PStr "B")]])] 200),
     [Connected; Executed SelectTables []]).
Proof.
  intros req all. split; [reflexivity|]. split.
  - apply (query_success Items ∅ 2000 store req alice_token "alice" []);
      [reflexivity | reflexivity | apply alice_token_valid; lia
      | reflexivity | reflexivity | apply Forall_nil_2 | apply Forall_nil_2].
  - apply (query_success DineTables ∅ 2000 store all alice_token "alice"
             [[PStr "T01"; PStr "Window"; PStr "A"];
              [PStr "T02"; PStr "Door"; PStr "B"]]);
      [reflexivity | reflexivity | apply alice_token_valid; lia
      | reflexivity | reflexivity
      | repeat (apply Forall_cons_2; [unfold complete; simpl; lia|]); apply Forall_nil_2
      | repeat (apply Forall_cons_2; [reflexivity|]); apply Forall_nil_2].
Defined.

(** C3 fails on a row with a binary column: the statement of [get_items]
    succeeds, with a row that has its eleven columns, the image among them
    as [bytes], and the answer is 500, not the records. *)
Lemma get_items_bytes_column :
  let row := [PStr "ABC"; PStr "Tea"; PInt 10; PInt 10; PInt 10; PStr "K1";
              PStr "Y"; PBytes "GIF89a"; PStr "Drinks"; PInt 5; PStr "Tea"] in
  let db := {| connect := Returned (); execute := fun _ _ => Returned [row] |} in
  let req := get (Some ("Bearer " +:+ alice_token)) [] in
  valid_for ∅ 2000 alice_token "alice" /\
  execute db (asked Items req).1 (asked Items req).2 = Returned [row] /\
  complete Items row /\
  get_items ∅ 2000 db req =
    (Returned (JsonResponse
       [("status", PStr "error");
        ("detail", PStr "Object of type bytes is not JSON serializable")] 500),
     [Connected; Executed SelectItems []]).
Proof.
  intros row db req. split; [apply alice_token_valid; lia|].
  split; [reflexivity|]. split; [unfold complete; simpl; lia|reflexivity].
Qed.

(** [GET /dine-tables/]: two rows, two records, in the order of the rows. *)
Example get_dine_tables_all :
  get_dine_tables ∅ 2000 store (get (Some ("Bearer " +:+ alice_token)) []) =
    (Returned (JsonResponse
       [("status", PStr "success"); ("count", PInt 2);
        ("tables", PList
           [PDict [("tableno", PStr "T01"); ("description", PStr "Window"); ("section", PStr "A")];
            PDict [("tableno", PStr "T02"); ("description", PStr "Door"); ("section", PStr "B")]])]
       200),
     [Connected; Executed SelectTables []]).
Proof. reflexivity. Qed.

(** A store that cannot be reached, and a statement that fails. *)
Lemma query_db_failure_witness :
  get_items ∅ 2000 unreachable (get (Some ("Bearer " +:+ alice_token)) []) =
    (Returned (JsonResponse
       [("status", PStr "error"); ("detail", PStr "Database server not found")] 500),
     [Connected]) /\
  get_dine_categories ∅ 2000 store (get (Some ("Bearer " +:+ alice_token)) []) =
    (Returned (JsonResponse
       [("status", PStr "error"); ("detail", PStr "Table 'dine_catagory' not found")] 500),
     [Connected; Executed SelectCategories []]).
Proof.
  split.
  - destruct (query_db_failure Items ∅ 2000) as (Hfailure & _).
    destruct (Hfailure unreachable (get (Some ("Bearer " +:+ alice_token)) [])
                alice_token "alice" (Exn OtherException "Database server not found")
                eq_refl eq_refl) as (Hconnect & _);
      [apply alice_token_valid; lia|].
    exact (Hconnect eq_refl).
  - destruct (query_db_failure DineCategories ∅ 2000) as (Hfailure & _).
    destruct (Hfailure store (get (Some ("Bearer " +:+ alice_token)) [])
                alice_token "alice" (Exn OtherException "Table 'dine_catagory' not found")
                eq_refl eq_refl) as (_ & Hexecute);
      [apply alice_token_valid; lia|].
    exact (Hexecute eq_refl eq_refl).
Defined.

(** A row shorter than the [SELECT] promises is an error caught like any
    other. *)
Example short_row_is_caught :
  let db := {| connect := Returned (); execute := fun _ _ => Returned [[PStr "T01"]] |} in
  get_dine_tables_view db (get None []) =
    (Returned (JsonResponse
       [("status", PStr "error"); ("detail", PStr "tuple index out of range")] 500),
     [Connected; Executed SelectTables []]).
Proof. reflexivity. Qed.

(** The failures of [login], one request each. *)
Lemma login_failures_witness :
  login ∅ store 1000 (post NotJson) = no_db (Returned (detail "Invalid JSON" 400)) /\
  login ∅ store 1000 (post (Json (PDict (credentials "alice" "   ")))) =
    no_db (Returned (detail "userid & password required" 400)) /\
  login ∅ unreachable 1000 (post (Json (PDict (credentials "alice" "s3cret")))) =
    (Returned (detail "DB error: Database server not found" 500), [Connected]) /\
  login ∅ store 1000 (post (Json (PDict (credentials "alice" "wrong")))) =
    (Returned (detail "Invalid credentials" 401),
     [Connected; Executed SelectUser ["alice"; "wrong"]]) /\
  login ∅ store 1000 (post (Json (PDict [("userid", PInt 5); ("password", PStr "")]))) =
    no_db (Returned (detail "Invalid JSON" 400)).
Proof.
  split; [|split; [|split; [|split]]].
  - destruct (login_failures ∅ store 1000 (post NotJson) eq_refl) as (Hnotjson & _).
    exact (Hnotjson eq_refl).
  - destruct (login_failures ∅ store 1000
                (post (Json (PDict (credentials "alice" "   ")))) eq_refl)
      as (_ & _ & _ & _ & Hobject).
    destruct (Hobject (credentials "alice" "   ") "alice" "   " eq_refl eq_refl eq_refl)
      as (Hempty & _).
    apply Hempty. right. by vm_compute.
  - destruct (login_failures ∅ unreachable 1000
                (post (Json (PDict (credentials "alice" "s3cret")))) eq_refl)
      as (_ & _ & _ & _ & Hobject).
    destruct (Hobject (credentials "alice" "s3cret") "alice" "s3cret"
                eq_refl eq_refl eq_refl) as (_ & Hquery).
    destruct Hquery as (Hconnect & _); [by vm_compute | by vm_compute |].
    exact (Hconnect _ eq_refl).
  - destruct (login_failures ∅ store 1000
                (post (Json (PDict (credentials "alice" "wrong")))) eq_refl)
      as (_ & _ & _ & _ & Hobject).
    destruct (Hobject (credentials "alice" "wrong") "alice" "wrong"
                eq_refl eq_refl eq_refl) as (_ & Hquery).
    destruct Hquery as (_ & _ & Hnorow); [by vm_compute | by vm_compute |].
    exact (Hnorow [] eq_refl eq_refl (or_introl eq_refl)).
  - destruct (login_failures ∅ store 1000
                (post (Json (PDict [("userid", PInt 5); ("password", PStr "")]))) eq_refl)
      as (_ & _ & _ & Hnotext & _).
    exact (Hnotext [("userid", PInt 5); ("password", PStr "")] eq_refl (or_introl eq_refl)).
Defined.

(** The scenario of the specification: ["imc-mobile"] against the default
    ["IMC-MOBILE"], and the default itself. *)
Lemma pair_check_exact_witness :
  let os := {| exe_exists := true; process_names := [None; Some "python.exe"];
               popen := Returned () |} in
  PAIR_PASSWORD ∅ = "IMC-MOBILE" /\
  pair_check ∅ os (post (Json (PDict [("password", PStr "imc-mobile")]))) =
    no_db (Returned (detail "Invalid password" 401)) /\
  pair_check ∅ os (post (Json (PDict [("password", PStr "IMC-MOBILE")]))) <>
    no_db (Returned (detail "Invalid password" 401)).
Proof.
  intros os. split; [reflexivity|]. split.
  - destruct (pair_check_exact ∅ os
                (post (Json (PDict [("password", PStr "imc-mobile")])))
                [("password", PStr "imc-mobile")] "imc-mobile" eq_refl eq_refl eq_refl)
      as (Hrejected & _).
    apply Hrejected. by vm_compute.
  - destruct (pair_check_exact ∅ os
                (post (Json (PDict [("password", PStr "IMC-MOBILE")])))
                [("password", PStr "IMC-MOBILE")] "IMC-MOBILE" eq_refl eq_refl eq_refl)
      as (_ & Haccepted).
    destruct (Haccepted eq_refl) as (Hnot401 & _). exact Hnot401.
Defined.

(** [GET /dine-tables/?tableno=] answers as [GET /dine-tables/] does. *)
Lemma empty_filter_is_absent_witness :
  let req := get (Some ("Bearer " +:+ alice_token)) [("tableno", "")] in
  querydict_get (GET req) "tableno" = Some "" /\
  get_dine_tables ∅ 2000 store req =
    get_dine_tables ∅ 2000 store (get (Some ("Bearer " +:+ alice_token)) []).
Proof.
  intros req. split; [reflexivity|].
  destruct (empty_filter_is_absent DineTables ∅ 2000 store req eq_refl)
    as (_ & _ & _ & Hsame & _).
  exact Hsame.
Defined.

(** With a value, the filtered statement runs. *)
Example get_dine_tables_one :
  get_dine_tables ∅ 2000 store (get (Some ("Bearer " +:+ alice_token)) [("tableno", "T02")]) =
    (Returned (JsonResponse
       [("status", PStr "success"); ("count", PInt 1);
        ("tables", PList
           [PDict [("tableno", PStr "T02"); ("description", PStr "Door"); ("section", PStr "B")]])]
       200),
     [Connected; Executed SelectTable ["T02"]]).
Proof. reflexivity. Qed.

(** The file of the launcher's documentation, with a comment line, an
    inline comment, a blank line, a line without ['='], and Windows line
    ends. *)
Example load_env_sample :
  exists st,
    load_env {[ "DB_UID" := "dba" ]}
      (Some ("# database" +:+ String "013" (String "010"
             ("DB_DSN = pktc  # the local DSN" +:+ String "010"
             ("" +:+ String "010"
             ("remark" +:+ String "010"
             "DNS_NAME=pos.local")))))) = Returned st /\
    loaded st = {[ "DB_DSN" := "pktc"; "DNS_NAME" := "pos.local" ]} /\
    environ st !! "DB_UID" = Some "dba" /\
    environ st !! "DB_DSN" = Some "pktc".
Proof. eexists. split; [reflexivity|]. by vm_compute. Qed.

(** A host whose outbound address is also listed under its name, with the
    loopback address; the first address is taken by another program. *)
Example select_bind_ip_sample :
  let net := {|
    outbound := Returned "192.168.1.20";
    host_addresses := Returned ["127.0.0.1"; "192.168.1.20"; "10.0.0.5"; "10.0.0.5"];
    probe := fun ip _ =>
      if String.eqb ip "10.0.0.5" then Returned ()
      else Raised (Exn OtherException "Address already in use")
  |} in
  ipv4_candidates net = ["192.168.1.20"; "10.0.0.5"] /\
  select_bind_ip net 8000 = ("10.0.0.5", ["192.168.1.20"; "10.0.0.5"]).
Proof. by vm_compute. Qed.

(** No network at all: the wildcard address, the only one tried. *)
Example select_bind_ip_offline :
  let down := Exn OtherException "Network is unreachable" in
  let net := {| outbound := Raised down; host_addresses := Raised down;
                probe := fun _ _ => Raised down |} in
  select_bind_ip net 8000 = ("0.0.0.0", ["0.0.0.0"]).
Proof. by vm_compute. Qed.

End Scenarios.

(** ** What [_strip_comment] returns *)

Module Trim.

Import SyncService PyFacts Strip.

Lemma _strip_comment_facts s :
  contains "#" (_strip_comment s) = false /\
  strip (_strip_comment s) = _strip_comment s /\
  _strip_comment (_strip_comment s) = _strip_comment s.
Proof.
  assert (Hno : contains "#" (_strip_comment s) = false)
    by apply strip_without, cut_fst_without.
  assert (Htrim : strip (_strip_comment s) = _strip_comment s)
    by apply strip_strip.
  split; [done|]. split; [done|].
  rewrite <- Htrim at 2. unfold _strip_comment at 1.
  by rewrite (cut_absent _ _ Hno).
Qed.

(** X2. What [_strip_comment] returns holds no ['#'] and no blank at
    either end, and [_strip_comment] leaves it as it is. *)
Theorem _strip_comment_clean (s : string) :
  contains "#" (_strip_comment s) = false /\
  strip (_strip_comment s) = _strip_comment s /\
  _strip_comment (_strip_comment s) = _strip_comment s.
Proof. apply _strip_comment_facts. Qed.

End Trim.

(** ** More on the environment overlay *)

Module Overlay.

Import SyncService PyFacts Strip Words LoadEnv Trim.

(** What a line does to the state when the environment takes its pair. *)
Definition bind_line (st : env_state) (line : string) : env_state :=
  match binding line with
  | Some (k, v) =>
      {| environ := <[k := v]> (environ st); loaded := <[k := v]> (loaded st) |}
  | None => st
  end.

(** The pairs of a line are ones the environment takes. *)
Definition takes (line : string) : Prop :=
  forall k v, binding line = Some (k, v) -> accepted k v.

Lemma load_env_line_returned st line st1 :
  load_env_line st line = Returned st1 ->
  st1 = bind_line st line /\ takes line.
Proof.
  rewrite load_env_line_binding. unfold bind_line, takes.
  destruct (binding line) as [[k v]|] eqn:Hb; [|by intros [= <-]].
  destruct (setenv (environ st) k v) as [env'|ex] eqn:Hs; [|done].
  simpl. intros [= <-].
  pose proof (setenv_returned _ _ _ _ Hs) as ->. split; [done|].
  intros k' v' [= <- <-].
  eapply setenv_accepted; [by eapply binding_key|done].
Qed.

Lemma load_env_lines_returned ls : forall st st',
  load_env_lines st ls = Returned st' ->
  st' = foldl bind_line st ls /\ Forall takes ls.
Proof.
  induction ls as [|line rest IH]; intros st st'; simpl.
  - intros [= <-]. by split.
  - destruct (load_env_line st line) as [st1|ex] eqn:Hl; [|done]. simpl.
    apply load_env_line_returned in Hl as [-> Ht].
    intros [-> Hrest]%IH. split; [done|]. by apply Forall_cons_2.
Qed.

(** The value given to [k] by a line, if the line binds [k]. *)
Definition value_for (k : string) (line : string) : option string :=
  match binding line with
  | Some (k', v) => if decide (k' = k) then Some v else None
  | None => None
  end.

Lemma value_for_Some k line v :
  value_for k line = Some v -> binding line = Some (k, v).
Proof.
  unfold value_for. destruct (binding line) as [[k' v']|]; [|done].
  destruct (decide (k' = k)) as [->|]; [|done]. by intros [= ->].
Qed.

Lemma value_for_None k line :
  value_for k line = None ->
  binding line = None \/ exists k' v, binding line = Some (k', v) /\ k' <> k.
Proof.
  unfold value_for. destruct (binding line) as [[k' v']|]; [|by left].
  destruct (decide (k' = k)) as [->|Hne]; [done|]. right. by exists k', v'.
Qed.

Lemma foldl_bind_line_lookup k ls : forall st,
  loaded (foldl bind_line st ls) !! k =
    match last (omap (value_for k) ls) with
    | Some v => Some v
    | None => loaded st !! k
    end /\
  environ (foldl bind_line st ls) !! k =
    match last (omap (value_for k) ls) with
    | Some v => Some v
    | None => environ st !! k
    end.
Proof.
  induction ls as [|line rest IH]; intros st; [done|].
  change (foldl bind_line st (line :: rest))
    with (foldl bind_line (bind_line st line) rest).
  destruct (IH (bind_line st line)) as [-> ->].
  assert (Hcons : omap (value_for k) (line :: rest) =
                  match value_for k line with
                  | Some v => v :: omap (value_for k) rest
                  | None => omap (value_for k) rest
                  end) by done.
  rewrite Hcons. clear Hcons.
  unfold bind_line. destruct (value_for k line) as [v|] eqn:Hv.
  - apply value_for_Some in Hv. rewrite Hv, last_cons. simpl.
    destruct (last (omap (value_for k) rest)); [done|].
    by rewrite !lookup_insert_eq.
  - apply value_for_None in Hv as [Hv|(k' & v & Hv & Hne)]; rewrite Hv; [done|].
    simpl. destruct (last (omap (value_for k) rest)); [done|].
    by rewrite !lookup_insert_ne.
Qed.

(** X3. When [load_env] returns, a name stands in the loaded set exactly
    when a line of the file binds it, with the value of the last such line;
    in the environment it has that value too, and a name no line binds
    keeps the value it had. *)
Theorem load_env_last_wins (env : gmap string string) (content : string)
    (k : string) (st : env_state) :
  load_env env (Some content) = Returned st ->
  loaded st !! k = last (omap (value_for k) (readlines content)) /\
  environ st !! k =
    match last (omap (value_for k) (readlines content)) with
    | Some v => Some v
    | None => env !! k
    end.
Proof.
  intros [-> _]%load_env_lines_returned.
  destruct (foldl_bind_line_lookup k (readlines content)
              {| environ := env; loaded := ∅ |}) as [-> ->].
  simpl. split; [|done].
  destruct (last _); [done|]. apply lookup_empty.
Qed.

Lemma foldl_bind_line_union e0 ls : forall st,
  environ st = loaded st ∪ e0 ->
  environ (foldl bind_line st ls) = loaded (foldl bind_line st ls) ∪ e0.
Proof.
  induction ls as [|line rest IH]; intros st Hst; simpl; [done|].
  apply IH. unfold bind_line. destruct (binding line) as [[k v]|]; [|done].
  simpl. by rewrite Hst, insert_union_l.
Qed.

(** X4. The environment [load_env] leaves when it returns is the loaded
    set laid over the environment it found: every pair reported as loaded
    is in the environment, with the same value, and nothing else has
    changed. *)
Theorem load_env_environ (env : gmap string string) (file : option string)
    (st : env_state) :
  load_env env file = Returned st ->
  environ st = loaded st ∪ env /\
  loaded st ⊆ environ st /\
  (forall k, loaded st !! k = None -> environ st !! k = env !! k).
Proof.
  intros Hst.
  assert (Hu : environ st = loaded st ∪ env).
  { destruct file as [content|]; simpl in Hst.
    - apply load_env_lines_returned in Hst as [-> _].
      apply foldl_bind_line_union. simpl. by rewrite (left_id_L ∅ (∪)).
    - injection Hst as <-. simpl. by rewrite (left_id_L ∅ (∪)). }
  split; [done|]. rewrite Hu. split.
  - apply map_union_subseteq_l.
  - intros k Hk. by rewrite lookup_union_r.
Qed.

(** A name and a value as [load_env] writes them. *)
Definition clean_pair (k v : string) : Prop :=
  k <> "" /\
  contains "=" k = false /\ strip k = k /\
  contains "#" v = false /\ strip v = v /\
  contains "000" k = false /\ contains "000" v = false.

Lemma binding_clean line k v :
  takes line -> binding line = Some (k, v) -> clean_pair k v.
Proof.
  intros Ht Hb. destruct (Ht k v Hb) as (Hne & Hk0 & Hv0).
  apply not_has_contains in Hk0, Hv0.
  apply binding_Some in Hb as (_ & a & b & _ & Ha & -> & ->).
  destruct (_strip_comment_facts (strip b)) as (Hno & Htrim & _).
  split; [done|]. split; [by apply strip_without|].
  split; [apply strip_strip|]. done.
Qed.

Lemma foldl_bind_line_clean ls : forall st,
  Forall takes ls ->
  map_Forall clean_pair (loaded st) ->
  map_Forall clean_pair (loaded (foldl bind_line st ls)).
Proof.
  induction ls as [|line rest IH]; intros st Hls Hst; simpl; [done|].
  apply Forall_cons in Hls as [Hline Hrest].
  apply IH; [done|]. unfold bind_line.
  destruct (binding line) as [[k v]|] eqn:Hb; [|done].
  simpl. apply map_Forall_insert_2; [by apply (binding_clean line)|done].
Qed.

(** X5. Every name in the loaded set [load_env] returns is not empty and
    free of ['='], every value free of ['#'], neither begins or ends with a
    blank, and neither holds a NUL character. *)
Theorem load_env_loaded_clean (env : gmap string string) (file : option string)
    (st : env_state) :
  load_env env file = Returned st ->
  forall k v, loaded st !! k = Some v ->
    k <> "" /\
    contains "=" k = false /\ strip k = k /\
    contains "#" v = false /\ strip v = v /\
    contains "000" k = false /\ contains "000" v = false.
Proof.
  destruct file as [content|]; simpl.
  - intros [-> Hls]%load_env_lines_returned.
    apply (foldl_bind_line_clean _ {| environ := env; loaded := ∅ |} Hls).
    apply map_Forall_empty.
  - intros [= <-] k v. simpl. by rewrite lookup_empty.
Qed.

End Overlay.

(** ** Who reaches the database *)

Module Access.

Import Views PyFacts Auth Login Queries.

Section WithJwt.

Context `{JwtLib}.

Lemma _decode_returned env now t p :
  _decode env now t = Returned p ->
  exists j, parse t = Some j /\ well_signed env j /\ payload j = p /\
    (forall e, exp p = Some e -> now < e).
Proof.
  unfold _decode, jwt_decode. destruct (parse t) as [j|]; [|done]. simpl.
  rewrite orb_false_r.
  destruct (String.eqb_spec (alg j) (JWT_ALGO env)) as [Ha|]; [|done]. simpl.
  destruct (refuses (JWT_SECRET env) (alg j)) as [ex|] eqn:Hr; [done|].
  destruct (String.eqb_spec (signature j) (sign (JWT_SECRET env) (alg j) (payload j)))
    as [Hs|]; [|done]. simpl.
  intros Hp. exists j. split; [done|]. split; [by split|].
  destruct (exp (payload j)) as [e|] eqn:He.
  - destruct (Z.leb_spec e now); [done|]. injection Hp as <-.
    split; [done|]. rewrite He. intros e' [= <-]. done.
  - injection Hp as <-. split; [done|]. by rewrite He.
Qed.

(** The answers [jwt_required] gives without calling the view. *)
Definition turned_away (r : reply) : Prop :=
  r = no_db (Returned (detail "Token missing" 401)) \/
  r = no_db (Returned (detail "Token expired" 401)) \/
  r = no_db (Returned (detail "Invalid token" 401)) \/
  r = no_db (Raised (Exn KeyError "'sub'")).

Lemma jwt_required_outcomes env now view req :
  turned_away (jwt_required env now view req) \/
  exists token u,
    authorization req = Some ("Bearer " +:+ token) /\
    valid_for env now token u /\
    jwt_required env now view req = view (set_userid req u).
Proof.
  unfold jwt_required, turned_away.
  destruct (_extract_token_total req) as (o & -> & Ho).
  destruct (truthy (default "" o)) eqn:Ht; simpl; [|by left; left].
  specialize (Ho eq_refl).
  destruct (_decode env now (default "" o)) as [p|ex] eqn:Hd; simpl.
  - apply _decode_returned in Hd as (j & Hp & Hw & <- & He).
    unfold payload_sub. destruct (sub (payload j)) as [u|] eqn:Hu.
    + right. exists (default "" o), u. split; [done|]. split; [|done].
      by exists j.
    + left. by right; right; right.
  - unfold _decode, jwt_decode in Hd.
    destruct (parse (default "" o)) as [j|];
      [|injection Hd as <-; left; by right; right; left].
    destruct (negb _); [injection Hd as <-; left; by right; right; left|].
    destruct (refuses _ _) as [ex'|].
    { injection Hd as <-. left. right. right. left.
      unfold refused_token. by destruct (exn_cls ex'). }
    destruct (negb _); [injection Hd as <-; left; by right; right; left|].
    destruct (exp (payload j)) as [e|]; [|done].
    destruct (e <=? now); [|done].
    injection Hd as <-. left. by right; left.
Qed.

(** X6. [jwt_required] either turns the request away, with one of three
    401 answers or with the [KeyError] of a token without subject, or it
    calls the view, and then the header holds a token that is valid for the
    subject handed to the view. *)
Theorem jwt_required_cases (env : gmap string string) (now : Z)
    (view : request -> reply) (req : request) :
  turned_away (jwt_required env now view req) \/
  exists token u,
    authorization req = Some ("Bearer " +:+ token) /\
    valid_for env now token u /\
    jwt_required env now view req = view (set_userid req u).
Proof. apply jwt_required_outcomes. Qed.

Lemma handler_of_cases e env now db req :
  (handler_of e env now db req).2 = [] \/
  exists token u,
    authorization req = Some ("Bearer " +:+ token) /\
    valid_for env now token u /\
    method req = "GET" /\
    handler_of e env now db req = view_of e db (set_userid req u).
Proof.
  rewrite handler_of_protected. unfold protected_get.
  destruct (jwt_required_outcomes env now
              (require_http_methods ["GET"] (view_of e db)) req)
    as [[->|[->|[->| ->]]]|(token & u & Hh & Hv & ->)]; try by left.
  unfold require_http_methods. simpl. rewrite orb_false_r.
  destruct (String.eqb_spec (method req) "GET") as [Hm|]; [|by left].
  right. by exists token, u.
Qed.

(** X7. A query endpoint touches the database only for a GET whose
    header holds a valid token. *)
Theorem no_query_without_token (e : endpoint) (env : gmap string string)
    (now : Z) (db : database) (req : request) :
  (handler_of e env now db req).2 <> [] ->
  method req = "GET" /\
  exists token u,
    authorization req = Some ("Bearer " +:+ token) /\
    valid_for env now token u.
Proof.
  intros Htr. destruct (handler_of_cases e env now db req)
    as [Hnil|(token & u & Hh & Hv & Hm & _)]; [done|].
  split; [done|]. by exists token, u.
Qed.

(** X8. Whatever the request, a query endpoint connects at most once and
    runs at most one statement: the unfiltered one without parameter, or
    the filtered one with the value of the filter, as it was given, as its
    only parameter. *)
Theorem one_statement_per_request (e : endpoint) (env : gmap string string)
    (now : Z) (db : database) (req : request) :
  let tr := (handler_of e env now db req).2 in
  tr = [] \/ tr = [Connected] \/
  tr = [Connected; Executed (q_all e) []] \/
  exists k, querydict_get (GET req) (filter_key e) = Some k /\ k <> "" /\
    tr = [Connected; Executed (q_one e) [k]].
Proof.
  intros tr. subst tr.
  destruct (handler_of_cases e env now db req)
    as [Hnil|(token & u & _ & _ & _ & ->)]; [by left|].
  rewrite view_of_asked, asked_set_userid. unfold run_query.
  destruct (connect db) as [[]|ex]; [|right; by left].
  assert (Htr : forall q ps,
    (let '(fetched, tr) := (execute db q ps, [Connected; Executed q ps]) in
     match rows ← fetched; data ← mapM (record_of e) rows;
           json_response
             [("status", PStr "success");
              ("count", PInt (Z.of_nat (length data)));
              (collection e, PList data)] 200
     with
     | Returned r => (Returned r, tr)
     | Raised ex => (Returned (failure ex), tr)
     end).2 = [Connected; Executed q ps]).
  { intros q ps. by destruct (_ ← execute db q ps; _). }
  rewrite Htr. unfold asked.
  destruct (querydict_get (GET req) (filter_key e)) as [k|] eqn:Hk;
    [|right; right; by left].
  destruct (decide (k = "")) as [->|Hne]; [right; right; by left|].
  right. right. right. by exists k.
Qed.

End WithJwt.

End Access.

(** ** Methods, sessions and the launch *)

Module Sessions.

Import Views PyFacts Auth Login Pairing Queries Access.

Definition not_allowed : reply :=
  no_db (Returned {| status_code := 405; content := PNone |}).

Lemma require_http_methods_other m view req :
  method req <> m -> require_http_methods [m] view req = not_allowed.
Proof.
  intros Hm. unfold require_http_methods. simpl.
  apply String.eqb_neq in Hm. by rewrite Hm.
Qed.

Section WithJwt.

Context `{JwtLib}.

(** X9. The method is checked after the token on the query endpoints and
    on [verify_token]: with a valid token any method but GET is answered
    405 and the database is left alone, and without a token the answer is
    401 whatever the method.  [login] and [pair_check] answer 405 to any
    method but POST, before they read the body. *)
Theorem method_gate (env : gmap string string) (now : Z) (req : request) :
  (forall e db token u,
     authorization req = Some ("Bearer " +:+ token) ->
     valid_for env now token u ->
     method req <> "GET" ->
     handler_of e env now db req = not_allowed /\
     verify_token env now req = not_allowed)
  /\
  (forall e db,
     authorization req = None ->
     handler_of e env now db req = no_db (Returned (detail "Token missing" 401)))
  /\
  (forall db, method req <> "POST" -> login env db now req = not_allowed)
  /\
  (forall os, method req <> "POST" -> pair_check env os req = not_allowed).
Proof.
  split; [|split; [|split]].
  - intros e db token u Hh Hv Hm. rewrite handler_of_protected.
    unfold protected_get, verify_token.
    rewrite !(jwt_required_valid env now _ req token u Hh Hv).
    by rewrite !require_http_methods_other.
  - intros e db Hh. rewrite handler_of_protected.
    unfold protected_get, jwt_required, _extract_token. by rewrite Hh.
  - intros db Hm. by apply require_http_methods_other.
  - intros os Hm. by apply require_http_methods_other.
Qed.

(** The outcomes of [login]: an answer that is not 200, the answer 200
    after a match, or an exception after a match, which the signing raises
    or else the writing of the answer. *)
Lemma login_outcomes env db now req :
  (exists resp tr,
     login env db now req = (Returned resp, tr) /\ status_code resp <> 200)
  \/
  exists u p user_id cols rest,
    method req = "POST" /\
    read_credentials (body req) = Returned (u, p) /\
    u <> "" /\ p <> "" /\
    connect db = Returned () /\
    execute db SelectUser [u; p] = Returned ((user_id :: cols) :: rest) /\
    ((refuses (JWT_SECRET env) (JWT_ALGO env) = None /\
      encodable user_id = true /\
      login env db now req =
        (Returned (JsonResponse
           [("status", PStr "success");
            ("message", PStr "Login successful");
            ("user_id", user_id);
            ("token", PStr (issued env now u))] 200),
         [Connected; Executed SelectUser [u; p]]))
     \/
     (exists ex,
        login env db now req = (Raised ex, [Connected; Executed SelectUser [u; p]]) /\
        (refuses (JWT_SECRET env) (JWT_ALGO env) = Some ex \/
         refuses (JWT_SECRET env) (JWT_ALGO env) = None /\
         encodable user_id = false /\ ex = not_serializable))).
Proof.
  unfold login, require_http_methods. simpl. rewrite orb_false_r.
  destruct (String.eqb_spec (method req) "POST") as [Hm|];
    [|left; by eexists _, _].
  unfold login_view.
  destruct (read_credentials (body req)) as [[u p]|ex]; [|left; by eexists _, _].
  destruct (truthy u) eqn:Hu; [|left; by eexists _, _].
  destruct (truthy p) eqn:Hp; [|left; by eexists _, _].
  simpl. unfold run_query.
  destruct (connect db) as [[]|ex] eqn:Hc; [|left; by eexists _, _].
  destruct (execute db SelectUser [u; p]) as [rows|ex] eqn:He; [|left; by eexists _, _].
  destruct rows as [|[|user_id cols] rest]; simpl; try (left; by eexists _, _).
  right. apply truthy_true in Hu, Hp.
  exists u, p, user_id, cols, rest. do 6 (split; [done|]).
  unfold jwt_encode, seven_days. fold (issued env now u).
  destruct (refuses (JWT_SECRET env) (JWT_ALGO env)) as [ex|] eqn:Hr; simpl.
  { right. exists ex. split; [done|by left]. }
  rewrite json_response_login.
  destruct (encodable user_id) eqn:Henc; [by left|].
  right. exists not_serializable. split; [done|]. by right.
Qed.

(** What is behind a 200 answer of [login]. *)
Lemma login_200 env db now req resp tr :
  login env db now req = (Returned resp, tr) ->
  status_code resp = 200 ->
  exists u p user_id cols rest,
    method req = "POST" /\
    read_credentials (body req) = Returned (u, p) /\
    u <> "" /\ p <> "" /\
    connect db = Returned () /\
    execute db SelectUser [u; p] = Returned ((user_id :: cols) :: rest) /\
    tr = [Connected; Executed SelectUser [u; p]] /\
    resp = JsonResponse
      [("status", PStr "success");
       ("message", PStr "Login successful");
       ("user_id", user_id);
       ("token", PStr (issued env now u))] 200.
Proof.
  intros Hl H200.
  destruct (login_outcomes env db now req)
    as [(resp' & tr' & Hl' & Hne)
       |(u & p & user_id & cols & rest & Hm & Hc & Hu & Hp & Hcn & He & Hout)].
  - rewrite Hl in Hl'. injection Hl' as <- <-. done.
  - exists u, p, user_id, cols, rest. do 6 (split; [done|]).
    destruct Hout as [(_ & _ & Hl')|(ex & Hl' & _)]; rewrite Hl in Hl'; [|done].
    by injection Hl' as -> ->.
Qed.

(** A 200 answer of [login] carries a token the library has signed. *)
Lemma login_200_signed env db now req resp tr :
  login env db now req = (Returned resp, tr) ->
  status_code resp = 200 ->
  refuses (JWT_SECRET env) (JWT_ALGO env) = None.
Proof.
  intros Hl H200.
  destruct (login_outcomes env db now req)
    as [(resp' & tr' & Hl' & Hne)|(u & p & user_id & cols & rest & Hout)].
  - rewrite Hl in Hl'. injection Hl' as <- <-. done.
  - destruct Hout as (_ & _ & _ & _ & _ & _ & [(Hr & _)|(ex & Hl' & _)]); [done|].
    rewrite Hl in Hl'. done.
Qed.

(** X10. [login] answers 200 only to a POST whose trimmed userid and
    password are not empty and for which the credential query, run once
    with these two as its parameters, returned a row; the [user_id] of the
    answer is the first column of that row.  It raises only after such a
    match, the exception being the one with which the token library refuses
    to sign, or else the one of an id that cannot be written as JSON; every
    other request is answered. *)
Theorem login_only_on_match (env : gmap string string) (db : database)
    (now : Z) (req : request) :
  (exists resp tr,
     login env db now req = (Returned resp, tr) /\
     (status_code resp = 200 ->
      exists u p user_id cols rest,
        method req = "POST" /\
        read_credentials (body req) = Returned (u, p) /\
        u <> "" /\ p <> "" /\
        execute db SelectUser [u; p] = Returned ((user_id :: cols) :: rest) /\
        tr = [Connected; Executed SelectUser [u; p]] /\
        assoc "user_id" (match content resp with PDict d => d | _ => [] end)
          = Some user_id))
  \/
  (exists ex u p user_id cols rest,
     login env db now req = (Raised ex, [Connected; Executed SelectUser [u; p]]) /\
     method req = "POST" /\
     read_credentials (body req) = Returned (u, p) /\
     u <> "" /\ p <> "" /\
     execute db SelectUser [u; p] = Returned ((user_id :: cols) :: rest) /\
     (refuses (JWT_SECRET env) (JWT_ALGO env) = Some ex \/
      refuses (JWT_SECRET env) (JWT_ALGO env) = None /\
      encodable user_id = false /\ ex = not_serializable)).
Proof.
  destruct (login_outcomes env db now req)
    as [(resp & tr & Hl & Hne)
       |(u & p & user_id & cols & rest & Hm & Hc & Hu & Hp & Hcn & He & Hout)].
  - left. exists resp, tr. by split.
  - destruct Hout as [(_ & _ & Hl)|(ex & Hl & Hwhy)].
    + left. eexists _, _. split; [exact Hl|]. intros _.
      by exists u, p, user_id, cols, rest.
    + right. by exists ex, u, p, user_id, cols, rest.
Qed.

(** X11. The token of a 200 answer of [login] lives seven days: it is
    valid for the trimmed userid at every time before now + 7 days, and at
    every time after that a request that presents it is answered 401
    ["Token expired"]. *)
Theorem login_token_lifetime (env : gmap string string) (db : database)
    (now : Z) (req : request) (resp : response) (tr : list db_event) :
  login env db now req = (Returned resp, tr) ->
  status_code resp = 200 ->
  exists token u,
    assoc "token" (match content resp with PDict d => d | _ => [] end)
      = Some (PStr token) /\
    (exists p, read_credentials (body req) = Returned (u, p)) /\
    (forall now', now' < now + 7 * 86400 -> valid_for env now' token u) /\
    (forall now' view req',
       now + 7 * 86400 < now' ->
       authorization req' = Some ("Bearer " +:+ token) ->
       jwt_required env now' view req' =
         no_db (Returned (detail "Token expired" 401))).
Proof.
  intros Hl H200.
  pose proof (login_200_signed env db now req resp tr Hl H200) as Hr.
  destruct (login_200 env db now req resp tr Hl H200)
    as (u & p & user_id & cols & rest & _ & Hc & _ & _ & _ & _ & _ & ->).
  exists (issued env now u), u. split; [done|]. split; [by exists p|].
  split; [intros now' Hlt; by apply issued_valid|].
  intros now' view req' Hlt Hh. unfold jwt_required.
  rewrite (_extract_token_bearer _ _ Hh). simpl.
  assert (issued env now u <> "") as Hne.
  { intros Heq. pose proof (parse_compact
      {| alg := JWT_ALGO env;
         payload := {| sub := Some u; exp := Some (now + 7 * 86400) |};
         signature := sign (JWT_SECRET env) (JWT_ALGO env)
                        {| sub := Some u; exp := Some (now + 7 * 86400) |} |}) as Hp.
    unfold issued in Heq. rewrite Heq in Hp.
    pose proof parse_empty as He. congruence. }
  apply truthy_true in Hne. rewrite Hne. simpl.
  unfold issued.
  rewrite (_decode_well_signed env now' _ _ (parse_compact _)) by (by split).
  simpl. destruct (Z.leb_spec (now + 7 * 86400) now'); [done|lia].
Qed.

End WithJwt.

Lemma is_infix_spec needle s :
  is_infix needle s = true <-> exists a b, s = a +:+ needle +:+ b.
Proof.
  induction s as [|c s IH].
  - simpl. rewrite orb_false_r. split.
    + intros Hp. apply (startswith_inv needle "") in Hp as [t Ht].
      by exists "", t.
    + intros (a & b & Hs). destruct needle as [|d n]; [done|].
      destruct a; cbv in Hs; discriminate.
  - change (is_infix needle (String c s))
      with (String.prefix needle (String c s) || is_infix needle s).
    rewrite orb_true_iff, IH. split.
    + intros [Hp|(a & b & ->)].
      * apply (startswith_inv needle) in Hp as [t Ht]. by exists "", t.
      * by exists (String c a), b.
    + intros ([|d a] & b & Hs).
      * left. change ("" +:+ needle +:+ b) with (needle +:+ b) in Hs.
        rewrite Hs. apply startswith_app.
      * right. change (String d a +:+ needle +:+ b)
          with (String d (a +:+ needle +:+ b)) in Hs.
        injection Hs as -> ->. by exists a, b.
Qed.

(** A process of the host whose name holds ["SyncService.exe"]. *)
Definition running (os : host) : Prop :=
  exists n a b, Some n ∈ process_names os /\ n = a +:+ "SyncService.exe" +:+ b.

Lemma running_existsb os :
  existsb (fun name =>
             match name with
             | Some n => truthy n && is_infix "SyncService.exe" n
             | None => false
             end) (process_names os) = true <-> running os.
Proof.
  unfold running. rewrite existsb_exists. split.
  - intros ([n|] & Hin & Hn); [|done].
    apply andb_true_iff in Hn as [_ Hn]. apply is_infix_spec in Hn as (a & b & ->).
    exists (a +:+ "SyncService.exe" +:+ b), a, b.
    split; [by apply list_elem_of_In|done].
  - intros (n & a & b & Hin & ->).
    exists (Some (a +:+ "SyncService.exe" +:+ b)).
    split; [by apply list_elem_of_In|].
    apply andb_true_iff. split; [by destruct a|]. apply is_infix_spec. by exists a, b.
Qed.

(** X12. Once the password is accepted, [pair_check] answers 404 when
    the executable is missing, whatever runs; it answers that the service
    already runs, and launches nothing, as soon as the name of some process
    holds ["SyncService.exe"] anywhere in it; only otherwise does it launch
    the executable, and a failure of the launch is answered 500 with its
    message. *)
Theorem pair_check_launch (env : gmap string string) (os : host) (req : request)
    (data : list (string * pyval)) :
  method req = "POST" ->
  body req = Json (PDict data) ->
  assoc "password" data = Some (PStr (PAIR_PASSWORD env)) ->
  (exe_exists os = false ->
   pair_check env os req = no_db (Returned (detail "SyncService.exe not found" 404)))
  /\
  (exe_exists os = true -> running os ->
   forall os', exe_exists os' = true -> process_names os' = process_names os ->
   pair_check env os' req =
     no_db (Returned (JsonResponse
       [("status", PStr "success");
        ("message", PStr "SyncService already running");
        ("pair_successful", PBool true)] 200)))
  /\
  (exe_exists os = true -> ~ running os ->
   pair_check env os req =
     match popen os with
     | Returned _ =>
         no_db (Returned (JsonResponse
           [("status", PStr "success");
            ("message", PStr "SyncService launched successfully");
            ("pair_successful", PBool true)] 200))
     | Raised ex =>
         no_db (Returned (detail ("Failed to start sync service: " +:+ exn_str ex) 500))
     end).
Proof.
  intros Hm Hb Hpw. unfold pair_check, require_http_methods. rewrite Hm. simpl.
  unfold pair_check_view. rewrite Hb. simpl. rewrite Hpw. simpl.
  rewrite String.eqb_refl. simpl.
  split; [by intros ->|]. split.
  - intros _ Hrun os' -> Hnames.
    apply running_existsb in Hrun. rewrite Hnames in *. simpl. by rewrite Hrun.
  - intros -> Hrun. simpl.
    destruct (existsb _ (process_names os)) eqn:Hex.
    + destruct Hrun. by apply running_existsb.
    + by destruct (popen os).
Qed.

(** X13. What [pair_check] makes of a POST that submits no password: a
    body that is not JSON is answered 400; an empty body, an object
    without the field and an object whose field is not a string are
    answered 401, whatever password is configured; and a JSON body that is
    not an object is not answered at all: the [AttributeError] of
    [data.get] leaves the handler. *)
Theorem pair_check_without_password (env : gmap string string) (os : host)
    (req : request) :
  method req = "POST" ->
  (body req = NotJson ->
   pair_check env os req = no_db (Returned (detail "Invalid JSON" 400)))
  /\
  (body req = EmptyBody ->
   pair_check env os req = no_db (Returned (detail "Invalid password" 401)))
  /\
  (forall data, body req = Json (PDict data) ->
     (forall s, assoc "password" data <> Some (PStr s)) ->
     pair_check env os req = no_db (Returned (detail "Invalid password" 401)))
  /\
  (forall v, body req = Json v -> (forall items, v <> PDict items) ->
     pair_check env os req = no_db (Raised (no_attribute v "get"))).
Proof.
  intros Hm. unfold pair_check, require_http_methods. rewrite Hm. simpl.
  unfold pair_check_view.
  split; [by intros ->|]. split; [by intros ->|]. split.
  - intros data -> Hpw. simpl.
    destruct (assoc "password" data) as [[| | |s| | |]|]; try done.
    by destruct (Hpw s).
  - intros v -> Hv. destruct v; try done. by destruct (Hv items).
Qed.

End Sessions.

(** ** sync/sql_helper.py *)

Module SqlHelper.

Import Views.

(** The configuration [_get_config] falls back on. *)
Definition fallback_config : pyval :=
  PDict [("dsn", PStr "pktc"); ("db_uid", PStr "dba"); ("db_pwd", PStr "sql")].

(** [_get_config()].  [paths] tells, for each of the places looked at, in
    order, whether a file is there ([None] when not) and what opening it
    and [json.load] give.  The first file found is the one returned; an
    exception on the way gives the fallback. *)
Fixpoint _get_config (paths : list (option (outcome pyval))) : pyval :=
  match paths with
  | [] => fallback_config
  | None :: rest => _get_config rest
  | Some (Returned v) :: _ => v
  | Some (Raised _) :: _ => fallback_config
  end.

(** [config.get(k, d)] *)
Definition py_get_default (data : pyval) (k : string) (d : pyval) : outcome pyval :=
  match data with
  | PDict items => Returned (default d (assoc k items))
  | _ => Raised (no_attribute data "get")
  end.

(** [os.getenv(k, d)]: the default is handed back as it is. *)
Definition os_getenv (env : gmap string string) (k : string) (d : pyval) : pyval :=
  match env !! k with
  | Some s => PStr s
  | None => d
  end.

(** The driver: whether the module could be imported, and
    [sqlanydb.connect(DSN=, UID=, PWD=)]. *)
Record driver := Driver {
  SQLANYDB_AVAILABLE : bool;
  sqlanydb_connect : pyval -> pyval -> pyval -> outcome unit
}.

Definition get_connection (drv : driver) (paths : list (option (outcome pyval)))
  (env : gmap string string) : outcome unit :=
  if negb (SQLANYDB_AVAILABLE drv)
  then Raised (Exn OtherException
         "sqlanydb module not installed. Install SAP SQL Anywhere client and run: pip install sqlanydb")
  else
    let config := _get_config paths in
    d ← py_get_default config "dsn" (PStr "pktc");
    let dsn := os_getenv env "DB_DSN" d in
    u ← py_get_default config "db_uid" (PStr "dba");
    let uid := os_getenv env "DB_UID" u in
    p ← py_get_default config "db_pwd" (PStr "sql");
    let pwd := os_getenv env "DB_PWD" p in
    sqlanydb_connect drv dsn uid pwd.

(** The database of the handlers, with [get_connection] as its way in. *)
Definition database_of (drv : driver) (paths : list (option (outcome pyval)))
  (env : gmap string string)
  (run : sql -> list string -> outcome (list row)) : database :=
  {| connect := get_connection drv paths env; execute := run |}.

(** X14. [_get_config] returns what the first file it finds holds, and
    never looks further: when that file cannot be read it returns the
    fallback, whatever the later places hold, as it does when no place has
    a file. *)
Theorem _get_config_first (n : nat) (found : outcome pyval)
    (later : list (option (outcome pyval))) :
  _get_config (replicate n None ++ Some found :: later) =
    match found with
    | Returned v => v
    | Raised _ => fallback_config
    end /\
  _get_config (replicate n None) = fallback_config.
Proof.
  induction n as [|n [IH1 IH2]]; simpl; [by destruct found|done].
Qed.

(** The value [get_connection] uses for a setting: the variable of the
    environment when it is set, else what the configuration gives for the
    key when it has the key, else the built-in text. *)
Definition setting (env : gmap string string) (items : list (string * pyval))
  (variable key builtin : string) : pyval :=
  match env !! variable with
  | Some s => PStr s
  | None =>
      match assoc key items with
      | Some v => v
      | None => PStr builtin
      end
  end.

(** X15. Without the driver [get_connection] raises, whatever the
    configuration and the environment.  With it, and a configuration that
    is an object, it connects with the three settings, each taken from the
    environment before the configuration and from the configuration before
    the built-in value, and gives back what the driver answers.  With a
    configuration that is not an object it raises without connecting, even
    when the environment sets all three. *)
Theorem get_connection_settings (drv : driver)
    (paths : list (option (outcome pyval))) (env : gmap string string) :
  (SQLANYDB_AVAILABLE drv = false ->
   exists ex, get_connection drv paths env = Raised ex)
  /\
  (SQLANYDB_AVAILABLE drv = true ->
   forall items, _get_config paths = PDict items ->
   get_connection drv paths env =
     sqlanydb_connect drv
       (setting env items "DB_DSN" "dsn" "pktc")
       (setting env items "DB_UID" "db_uid" "dba")
       (setting env items "DB_PWD" "db_pwd" "sql"))
  /\
  (SQLANYDB_AVAILABLE drv = true ->
   (forall items, _get_config paths <> PDict items) ->
   get_connection drv paths env =
     Raised (no_attribute (_get_config paths) "get")).
Proof.
  unfold get_connection. split; [|split].
  - intros ->. by eexists.
  - intros -> items ->. simpl. unfold setting, os_getenv.
    by destruct (env !! "DB_DSN"), (env !! "DB_UID"), (env !! "DB_PWD"),
      (assoc "dsn" items), (assoc "db_uid" items), (assoc "db_pwd" items).
  - intros -> Hno. simpl.
    destruct (_get_config paths) as [| | | | |items|]; try done.
    by destruct (Hno items).
Qed.

(** X16. Without the driver, the handlers that go through
    [get_connection] answer 500 and carry its message: a query endpoint
    asked with a valid token, as the [detail] of its error, and [login]
    asked with a userid and a password, behind ["DB error: "].  No statement
    is run. *)
Theorem driver_missing `{JwtLib} (drv : driver)
    (paths : list (option (outcome pyval))) (env : gmap string string)
    (run : sql -> list string -> outcome (list row)) (now : Z) :
  SQLANYDB_AVAILABLE drv = false ->
  let db := database_of drv paths env run in
  let message :=
    "sqlanydb module not installed. Install SAP SQL Anywhere client and run: pip install sqlanydb" in
  (forall e req token u,
     method req = "GET" ->
     authorization req = Some ("Bearer " +:+ token) ->
     Auth.valid_for env now token u ->
     Queries.handler_of e env now db req =
       (Returned (JsonResponse
          [("status", PStr "error"); ("detail", PStr message)] 500),
        [Connected]))
  /\
  (forall req u p,
     method req = "POST" ->
     read_credentials (body req) = Returned (u, p) ->
     u <> "" -> p <> "" ->
     login env db now req =
       (Returned (detail ("DB error: " +:+ message) 500), [Connected])).
Proof.
  intros Hdrv db message.
  assert (Hc : connect db = Raised (Exn OtherException message)).
  { simpl. unfold get_connection. by rewrite Hdrv. }
  split.
  - intros e req token u Hm Hh Hv.
    rewrite (Queries.handler_of_valid e env now db req token u Hm Hh Hv).
    rewrite Queries.view_of_asked. unfold run_query. by rewrite Hc.
  - intros req u p Hm Hcred Hu Hp.
    rewrite Login.login_post by done. unfold login_view. rewrite Hcred.
    apply PyFacts.truthy_true in Hu, Hp. rewrite Hu, Hp. simpl.
    unfold run_query. by rewrite Hc.
Qed.

End SqlHelper.

(** ** The launcher's settings *)

Module Launcher.

Import SyncService Views PyFacts LoadEnv Trim SqlHelper.

(** A [dict] with string keys, as the list of its items. *)
Definition dict := list (string * pyval).

(** [d[k] = v]: the value of an existing key is replaced where it
    stands, a new key goes to the end. *)
Fixpoint dict_set (k : string) (v : pyval) (d : dict) : dict :=
  match d with
  | [] => [(k, v)]
  | (k', v') :: rest =>
      if String.eqb k' k then (k', v) :: rest
      else (k', v') :: dict_set k v rest
  end.

(** [d.update(items)] for the items of another [dict]. *)
Definition dict_update (d : dict) (items : dict) : dict :=
  foldl (fun acc kv => dict_set kv.1 kv.2 acc) d items.

(** [_strip_comment(s)], whatever [s] is: only a string is changed. *)
Definition _strip_comment_any (v : pyval) : pyval :=
  match v with
  | PStr s => PStr (_strip_comment s)
  | _ => v
  end.

(** What is at [config.json]: no file, a file that cannot be opened or
    decoded, or a file that holds a JSON object (a file that holds a false
    value counts as one that holds [{}], as [json.load(f) or {}] has it).  A
    file that holds another value is not covered. *)
Inductive config_file :=
  | NoConfig
  | Unreadable (e : exn)
  | ConfigObject (items : dict).

Definition default_cfg : dict :=
  [("ip", PStr "auto"); ("port", PInt 8000); ("dsn", PNone);
   ("settings", PStr "django_sync.settings"); ("env_file", PStr ".env")].

Definition load_config (file : config_file) : outcome dict :=
  let cfg := default_cfg in
  cfg ←
    match file with
    | NoConfig => Returned cfg
    | Unreadable e => Raised e
    | ConfigObject user => Returned (dict_update cfg user)
    end;
  if py_truthy (default PNone (assoc "dsn" cfg))
  then Returned (dict_set "dsn" (_strip_comment_any (default PNone (assoc "dsn" cfg))) cfg)
  else Returned cfg.

(** The head of [main], up to the settings it leaves in the environment
    for the database: the configuration is loaded, the overlay it names is
    laid over the environment, and [DB_DSN], [DB_UID] and [DB_PWD] are
    set.  [files] gives the content of the file a name stands for next to
    the executable. *)
Definition main_environment (file : config_file)
  (files : string -> option string) (env : gmap string string)
  : outcome (dict * env_state) :=
  cfg ← load_config file;
  name ←
    match default (PStr ".env") (assoc "env_file" cfg) with
    | PStr n => Returned n
    | PBytes _ => Raised (Exn TypeError "Can't mix strings and bytes in path components")
    | v =>
        Raised (Exn TypeError
          ("join() argument must be str, bytes, or os.PathLike object, not '"
           +:+ type_name v +:+ "'"))
    end;
  st ← load_env env (files name);
  let dsn :=
    match environ st !! "DB_DSN" with
    | Some s => PStr s
    | None => or_empty (default PNone (assoc "dsn" cfg))
    end in
  match _strip_comment_any dsn with
  | PStr s =>
      e1 ← setenv (environ st) "DB_DSN" s;
      e2 ← setenv e1 "DB_UID" (getenv e1 "DB_UID" "dba");
      e3 ← setenv e2 "DB_PWD" (getenv e2 "DB_PWD" "(*$^)");
      Returned (cfg, {| environ := e3; loaded := loaded st |})
  | v => Raised (Exn TypeError ("str expected, not " +:+ type_name v))
  end.

Lemma assoc_dict_set k k' v d :
  assoc k (dict_set k' v d) = if decide (k' = k) then Some v else assoc k d.
Proof.
  induction d as [|[k0 v0] d IH]; simpl.
  - destruct (String.eqb_spec k' k), (decide (k' = k)); congruence.
  - destruct (String.eqb_spec k0 k') as [->|Hne]; simpl.
    + destruct (String.eqb_spec k' k), (decide (k' = k)); congruence.
    + rewrite IH.
      destruct (String.eqb_spec k0 k) as [->|], (decide (k' = k)); congruence.
Qed.

(** The value a list of items gives to [k]: that of its last item for
    [k]. *)
Definition given (k : string) (items : dict) : option pyval :=
  last (omap (fun kv : string * pyval =>
                if decide (kv.1 = k) then Some kv.2 else None) items).

Lemma assoc_dict_update k items : forall d,
  assoc k (dict_update d items) =
    match given k items with
    | Some v => Some v
    | None => assoc k d
    end.
Proof.
  unfold dict_update, given.
  induction items as [|[k' v] items IH]; intros d; simpl; [done|].
  rewrite IH, assoc_dict_set. destruct (decide (k' = k)) as [->|]; [|done].
  rewrite last_cons. by destruct (last _).
Qed.

(** X17. The configuration [load_config] returns always has the five
    keys [ip], [port], [dsn], [settings] and [env_file]; without a file
    they have their defaults.  With a file that holds an object, every key
    has the value the file gives it, and the default, if it is one of the
    five, when the file does not give it; only [dsn] differs: when it is a
    non-empty string it is stored without its comment and trimmed.  A file
    that cannot be read makes [load_config] raise. *)
Theorem load_config_merge (file : config_file) :
  match file with
  | NoConfig => load_config file = Returned default_cfg
  | Unreadable e => load_config file = Raised e
  | ConfigObject user =>
      exists cfg,
        load_config file = Returned cfg /\
        (forall k, k <> "dsn" ->
           assoc k cfg =
             match given k user with
             | Some v => Some v
             | None => assoc k default_cfg
             end) /\
        assoc "dsn" cfg =
          Some (match given "dsn" user with
                | Some (PStr s) => PStr (_strip_comment s)
                | Some v => v
                | None => PNone
                end) /\
        (forall k, k ∈ ["ip"; "port"; "dsn"; "settings"; "env_file"] ->
           is_Some (assoc k cfg))
  end.
Proof.
  destruct file as [|e|user]; [done..|].
  unfold load_config. simpl mbind.
  assert (Hget : forall k, assoc k (dict_update default_cfg user) =
            match given k user with
            | Some v => Some v
            | None => assoc k default_cfg
            end) by (intros k; apply assoc_dict_update).
  set (cfg0 := dict_update default_cfg user) in *.
  assert (Hfive : forall cfg : dict,
            (forall k, k <> "dsn" -> assoc k cfg = assoc k cfg0) ->
            is_Some (assoc "dsn" cfg) ->
            forall k, k ∈ ["ip"; "port"; "dsn"; "settings"; "env_file"] ->
              is_Some (assoc k cfg)).
  { intros cfg Hsame Hdsn k Hk.
    destruct (decide (k = "dsn")) as [->|Hne]; [done|].
    rewrite Hsame, Hget by done.
    destruct (given k user); [done|].
    repeat (apply elem_of_cons in Hk as [->|Hk]; [done|]).
    by apply elem_of_nil in Hk. }
  destruct (py_truthy (default PNone (assoc "dsn" cfg0))) eqn:Ht.
  - eexists. split; [reflexivity|].
    assert (Hd : assoc "dsn" (dict_set "dsn"
                   (_strip_comment_any (default PNone (assoc "dsn" cfg0))) cfg0) =
                 Some (_strip_comment_any (default PNone (assoc "dsn" cfg0))))
      by (rewrite assoc_dict_set; by destruct (decide _)).
    split; [|split].
    + intros k Hk. rewrite assoc_dict_set.
      destruct (decide ("dsn" = k)); [congruence|]. apply Hget.
    + rewrite Hd. f_equal. rewrite Hget in *.
      by destruct (given "dsn" user) as [[]|].
    + apply Hfive; [|by rewrite Hd].
      intros k Hk. rewrite assoc_dict_set. by destruct (decide ("dsn" = k)); [congruence|].
  - exists cfg0. split; [done|]. split; [|split].
    + intros k _. apply Hget.
    + rewrite Hget in *. destruct (given "dsn" user) as [[| | |s| | |]|]; try done.
      simpl in Ht. apply truthy_false in Ht as ->. done.
    + apply Hfive; [done|]. rewrite Hget. by destruct (given "dsn" user).
Qed.

Lemma main_environment_returned file files env cfg st :
  main_environment file files env = Returned (cfg, st) ->
  exists name st0 d,
    load_config file = Returned cfg /\
    default (PStr ".env") (assoc "env_file" cfg) = PStr name /\
    load_env env (files name) = Returned st0 /\
    d = match environ st0 !! "DB_DSN" with
        | Some s => _strip_comment s
        | None =>
            match assoc "dsn" cfg with
            | Some (PStr s) => _strip_comment s
            | _ => ""
            end
        end /\
    loaded st = loaded st0 /\
    environ st =
      <["DB_PWD" := default "(*$^)" (environ st0 !! "DB_PWD")]>
        (<["DB_UID" := default "dba" (environ st0 !! "DB_UID")]>
           (<["DB_DSN" := d]> (environ st0))).
Proof.
  unfold main_environment.
  destruct (load_config file) as [cfg'|ex]; [|done]. simpl.
  destruct (default (PStr ".env") (assoc "env_file" cfg')) as [| | |name| | |] eqn:Hn;
    try done. simpl.
  destruct (load_env env (files name)) as [st0|ex] eqn:Hload; [|done]. simpl.
  set (dsn := match environ st0 !! "DB_DSN" with
              | Some s => PStr s
              | None => or_empty (default PNone (assoc "dsn" cfg'))
              end).
  destruct (_strip_comment_any dsn) as [| | |s| | |] eqn:Hs; try done.
  destruct (setenv (environ st0) "DB_DSN" s) as [e1|ex] eqn:H1; [|done].
  apply setenv_returned in H1 as ->. simpl.
  destruct (setenv _ "DB_UID" _) as [e2|ex] eqn:H2; [|done].
  apply setenv_returned in H2 as ->. simpl.
  destruct (setenv _ "DB_PWD" _) as [e3|ex] eqn:H3; [|done].
  apply setenv_returned in H3 as ->. simpl.
  intros [= <- <-]. exists name, st0, s.
  split; [done|]. split; [done|]. split; [done|]. split.
  - subst dsn. destruct (environ st0 !! "DB_DSN") as [s0|].
    + simpl in Hs. by injection Hs as <-.
    + destruct (assoc "dsn" cfg') as [v|]; simpl in Hs; [|by injection Hs as <-].
      unfold or_empty in Hs. destruct (py_truthy v) eqn:Ht.
      * destruct v; simpl in Hs; try discriminate. by injection Hs as <-.
      * simpl in Hs. injection Hs as <-.
        destruct v as [| | |s1| | |]; try done.
        simpl in Ht. by apply truthy_false in Ht as ->.
  - split; [done|]. simpl. unfold getenv.
    by rewrite lookup_insert_ne, lookup_insert_ne, lookup_insert_ne by done.
Qed.

(** X18. When the head of [main] returns, [DB_DSN], [DB_UID] and
    [DB_PWD] are set and nothing else has changed since the overlay.
    [DB_DSN] is the value the overlaid environment had for it, or else the
    [dsn] of the configuration, or else the empty string, in each case
    without comment and trimmed; [DB_UID] and [DB_PWD] keep the value of the
    overlaid environment and default to ["dba"] and ["(*$^)"]. *)
Theorem main_environment_settings (file : config_file)
    (files : string -> option string) (env : gmap string string)
    (cfg : dict) (st : env_state) :
  main_environment file files env = Returned (cfg, st) ->
  exists name st0 d,
    load_config file = Returned cfg /\
    load_env env (files name) = Returned st0 /\
    loaded st = loaded st0 /\
    environ st !! "DB_DSN" = Some d /\
    d = match environ st0 !! "DB_DSN" with
        | Some s => _strip_comment s
        | None =>
            match assoc "dsn" cfg with
            | Some (PStr s) => _strip_comment s
            | _ => ""
            end
        end /\
    contains "#" d = false /\ strip d = d /\
    environ st !! "DB_UID" = Some (default "dba" (environ st0 !! "DB_UID")) /\
    environ st !! "DB_PWD" = Some (default "(*$^)" (environ st0 !! "DB_PWD")) /\
    (forall k, k <> "DB_DSN" -> k <> "DB_UID" -> k <> "DB_PWD" ->
       environ st !! k = environ st0 !! k).
Proof.
  intros Hmain.
  destruct (main_environment_returned file files env cfg st Hmain)
    as (name & st0 & d & Hcfg & _ & Hst0 & Hd & Hl & He).
  exists name, st0, d. rewrite He.
  split; [done|]. split; [done|]. split; [done|].
  split; [by rewrite lookup_insert_ne, lookup_insert_ne, lookup_insert_eq|].
  split; [done|].
  assert (contains "#" d = false /\ strip d = d) as [Hno Htrim].
  { rewrite Hd. destruct (environ st0 !! "DB_DSN") as [s|].
    - by destruct (_strip_comment_facts s) as (? & ? & _).
    - destruct (assoc "dsn" cfg) as [[| | |s| | |]|]; try done.
      by destruct (_strip_comment_facts s) as (? & ? & _). }
  split; [done|]. split; [done|].
  split; [by rewrite lookup_insert_ne, lookup_insert_eq|].
  split; [by rewrite lookup_insert_eq|].
  intros k H1 H2 H3. by rewrite !lookup_insert_ne.
Qed.

(** X19. After the head of [main], [get_connection] connects with the
    three values of the environment, as strings: whatever object the
    configuration of [sql_helper] is, none of its values and none of the
    built-in ones is used. *)
Theorem connection_after_main (file : config_file)
    (files : string -> option string) (env : gmap string string)
    (cfg : dict) (st : env_state) (drv : driver)
    (paths : list (option (outcome pyval))) (items : list (string * pyval)) :
  main_environment file files env = Returned (cfg, st) ->
  SQLANYDB_AVAILABLE drv = true ->
  _get_config paths = PDict items ->
  exists d u p,
    environ st !! "DB_DSN" = Some d /\
    environ st !! "DB_UID" = Some u /\
    environ st !! "DB_PWD" = Some p /\
    get_connection drv paths (environ st) =
      sqlanydb_connect drv (PStr d) (PStr u) (PStr p).
Proof.
  intros Hmain Hdrv Hconfig.
  destruct (main_environment_returned file files env cfg st Hmain)
    as (name & st0 & d & _ & _ & _ & _ & _ & He).
  exists d, (default "dba" (environ st0 !! "DB_UID")),
    (default "(*$^)" (environ st0 !! "DB_PWD")).
  assert (H1 : environ st !! "DB_DSN" = Some d)
    by (by rewrite He, lookup_insert_ne, lookup_insert_ne, lookup_insert_eq).
  assert (H2 : environ st !! "DB_UID" = Some (default "dba" (environ st0 !! "DB_UID")))
    by (by rewrite He, lookup_insert_ne, lookup_insert_eq).
  assert (H3 : environ st !! "DB_PWD" = Some (default "(*$^)" (environ st0 !! "DB_PWD")))
    by (by rewrite He, lookup_insert_eq).
  split; [done|]. split; [done|]. split; [done|].
  unfold get_connection. rewrite Hdrv, Hconfig. simpl.
  unfold os_getenv. by rewrite H1, H2, H3.
Qed.

End Launcher.

(** ** More on the bind address and on the answers of the endpoints *)

Module Preference.

Import SyncService BindAddress.

(** X20. When the outbound address is known and can be bound, it is the
    address selected, and the only one tried, whatever the host name
    resolves to. *)
Theorem outbound_preferred (net : network) (port : Z) (ip : string) :
  outbound net = Returned ip ->
  probe net ip port = Returned () ->
  select_bind_ip net port = (ip, [ip]).
Proof.
  intros Ho Hp. unfold select_bind_ip, ipv4_candidates, gathered. rewrite Ho.
  assert (Hhead : forall rest, uniq_loop ∅ [] (([] ++ [ip]) ++ rest) =
                    ip :: filter (fun y => y ∉ ({[ip]} ∪ ∅ : gset string)) (first_seen rest)).
  { intros rest. simpl. destruct (decide (ip ∈ (∅ : gset string))) as [Hin|_].
    - by apply not_elem_of_empty in Hin.
    - by rewrite uniq_loop_first_seen. }
  destruct (host_addresses net) as [infos|ex].
  - rewrite Hhead. simpl. by rewrite Hp.
  - specialize (Hhead []). rewrite app_nil_r in Hhead. rewrite Hhead.
    simpl. by rewrite Hp.
Qed.

End Preference.

Module Answers.

Import Views PyFacts Auth Queries.

(** The [IndexError] of a row without one of the columns read. *)
Definition short_row : exn := Exn IndexError "tuple index out of range".

Lemma record_of_short e r :
  (length r < length (columns e))%nat -> record_of e r = Raised short_row.
Proof.
  destruct e; simpl; intros Hlen.
  - do 11 (destruct r as [|? r]; [done|]). simpl in Hlen. lia.
  - do 3 (destruct r as [|? r]; [done|]). simpl in Hlen. lia.
  - do 2 (destruct r as [|? r]; [done|]). simpl in Hlen. lia.
  - do 2 (destruct r as [|? r]; [done|]). simpl in Hlen. lia.
Qed.

Lemma mapM_record_of_cases e rows :
  (Forall (complete e) rows /\
   mapM (record_of e) rows = Returned (map (named_record (columns e)) rows)) \/
  (Exists (fun r => (length r < length (columns e))%nat) rows /\
   mapM (record_of e) rows = Raised short_row).
Proof.
  induction rows as [|r rows IH]; simpl; [by left|].
  destruct (decide (length (columns e) <= length r)%nat) as [Hr|Hr].
  - rewrite (record_of_named e r Hr). simpl.
    destruct IH as [[Hall ->]|[Hex ->]].
    + left. by split; [constructor|].
    + right. split; [by constructor|done].
  - rewrite record_of_short by lia.
    right. split; [constructor; lia|done].
Qed.

Lemma forallb_writable_cases e rows :
  (Forall (fun r => writable e r = true) rows /\ forallb (writable e) rows = true) \/
  (Exists (fun r => writable e r = false) rows /\ forallb (writable e) rows = false).
Proof.
  induction rows as [|r rows IH]; simpl; [by left|].
  destruct (writable e r) eqn:Hr; simpl.
  - destruct IH as [[Hall ->]|[Hex ->]].
    + left. by split; [constructor|].
    + right. split; [by constructor|done].
  - right. split; [by constructor|done].
Qed.

Section WithJwt.

Context `{JwtLib}.

(** X21. On every query endpoint, a GET with a valid token is answered
    either 200 with a record for every row the statement returned, which
    happens exactly when the connection and the statement succeed, every
    row has all its columns and every column read can be written as JSON,
    or 500 with the message of what went wrong: the failure of the
    connection or of the statement, the [IndexError] of a row that is too
    short, or the [TypeError] of a column that cannot be written.  There is
    no answer with a part of the rows. *)
Theorem all_rows_or_error (e : endpoint) (env : gmap string string) (now : Z)
    (db : database) (req : request) (token u : string) :
  method req = "GET" ->
  authorization req = Some ("Bearer " +:+ token) ->
  valid_for env now token u ->
  (exists rows,
     connect db = Returned () /\
     execute db (asked e req).1 (asked e req).2 = Returned rows /\
     Forall (complete e) rows /\
     Forall (fun r => writable e r = true) rows /\
     (handler_of e env now db req).1 = Returned (success e rows))
  \/
  (exists ex,
     (handler_of e env now db req).1 = Returned (failure ex) /\
     (connect db = Raised ex \/
      connect db = Returned () /\
      (execute db (asked e req).1 (asked e req).2 = Raised ex \/
       exists rows,
         execute db (asked e req).1 (asked e req).2 = Returned rows /\
         (Exists (fun r => (length r < length (columns e))%nat) rows /\
          ex = short_row
          \/
          Forall (complete e) rows /\
          Exists (fun r => writable e r = false) rows /\
          ex = not_serializable)))).
Proof.
  intros Hm Hh Hv.
  rewrite (handler_of_valid e env now db req token u Hm Hh Hv).
  rewrite view_of_asked, asked_set_userid. unfold run_query.
  destruct (connect db) as [[]|ex]; [|right; exists ex; by split; [|left]].
  destruct (execute db (asked e req).1 (asked e req).2) as [rows|ex];
    [|right; exists ex; split; [done|]; right; split; [done|by left]].
  simpl. destruct (mapM_record_of_cases e rows) as [[Hall ->]|[Hex ->]].
  - simpl. rewrite json_response_success.
    destruct (forallb_writable_cases e rows) as [[Hw ->]|[Hw ->]].
    + left. by exists rows.
    + right. exists not_serializable. split; [done|]. right. split; [done|].
      right. exists rows. split; [done|]. right. by split.
  - right. exists short_row. split; [done|]. right. split; [done|].
    right. exists rows. split; [done|]. left. by split.
Qed.

End WithJwt.

End Answers.

(** ** More scenarios *)

Module Cases.

Import SyncService Views Auth Login Pairing Queries Scenarios.
Import Overlay Access Sessions SqlHelper Launcher Preference Answers.

#[local] Existing Instance ToyJwt.toy.

(** An overlay that sets one name twice, over an environment that has
    another. *)
Definition twice : string :=
  "DB_DSN=first" +:+ String "010" ("DB_DSN = second # wins" +:+ String "010" "").

Definition twice_state : env_state :=
  {| environ := {[ "DB_DSN" := "second"; "HOME" := "/root" ]};
     loaded := {[ "DB_DSN" := "second" ]} |}.

Lemma load_env_last_wins_witness :
  load_env {[ "HOME" := "/root" ]} (Some twice) = Returned twice_state /\
  loaded twice_state !! "DB_DSN" = Some "second" /\
  environ twice_state !! "HOME" = Some "/root".
Proof.
  assert (Hload : load_env {[ "HOME" := "/root" ]} (Some twice) = Returned twice_state)
    by (by vm_compute).
  split; [exact Hload|]. split.
  - destruct (load_env_last_wins {[ "HOME" := "/root" ]} twice "DB_DSN" twice_state
                Hload) as [Hloaded _].
    rewrite Hloaded. by vm_compute.
  - destruct (load_env_last_wins {[ "HOME" := "/root" ]} twice "HOME" twice_state
                Hload) as [_ Henv].
    rewrite Henv. by vm_compute.
Defined.

Lemma load_env_environ_witness :
  load_env {[ "HOME" := "/root" ]} (Some twice) = Returned twice_state /\
  environ twice_state = loaded twice_state ∪ {[ "HOME" := "/root" ]}.
Proof.
  assert (Hload : load_env {[ "HOME" := "/root" ]} (Some twice) = Returned twice_state)
    by (by vm_compute).
  split; [exact Hload|].
  destruct (load_env_environ {[ "HOME" := "/root" ]} (Some twice) twice_state Hload)
    as [Hunion _].
  exact Hunion.
Defined.

Lemma load_env_loaded_clean_witness :
  load_env {[ "HOME" := "/root" ]} (Some twice) = Returned twice_state /\
  loaded twice_state !! "DB_DSN" = Some "second" /\
  contains "#" "second" = false /\ strip "second" = "second".
Proof.
  assert (Hload : load_env {[ "HOME" := "/root" ]} (Some twice) = Returned twice_state)
    by (by vm_compute).
  assert (Hlook : loaded twice_state !! "DB_DSN" = Some "second") by (by vm_compute).
  split; [exact Hload|]. split; [exact Hlook|].
  destruct (load_env_loaded_clean {[ "HOME" := "/root" ]} (Some twice) twice_state
              Hload "DB_DSN" "second" Hlook) as (_ & _ & _ & Hhash & Htrim & _).
  by split.
Defined.

(** A query that reached the database came with a token. *)
Lemma no_query_without_token_witness :
  let req := get (Some ("Bearer " +:+ alice_token)) [] in
  (get_dine_tables ∅ 2000 store req).2 <> [] /\
  method req = "GET" /\
  exists token u,
    authorization req = Some ("Bearer " +:+ token) /\ valid_for ∅ 2000 token u.
Proof.
  intros req. split; [by vm_compute|].
  apply (no_query_without_token DineTables ∅ 2000 store req). by vm_compute.
Defined.

(** Alice's token, a second after its seven days. *)
Lemma login_token_lifetime_witness :
  let req := post (Json (PDict (credentials "alice" "s3cret"))) in
  let view := fun r : request => no_db (Returned (detail "in" 200)) in
  exists token,
    assoc "token"
      (match (login ∅ store 1000 req).1 with
       | Returned {| content := PDict d |} => d
       | _ => []
       end) = Some (PStr token) /\
    jwt_required ∅ (1000 + 7 * 86400 + 1) view (get (Some ("Bearer " +:+ token)) []) =
      no_db (Returned (detail "Token expired" 401)).
Proof.
  intros req view.
  destruct (login ∅ store 1000 req) as [[resp|ex] tr] eqn:Hlogin;
    [|by vm_compute in Hlogin].
  assert (H200 : status_code resp = 200).
  { vm_compute in Hlogin. by injection Hlogin as <- _. }
  destruct (login_token_lifetime ∅ store 1000 req resp tr Hlogin H200)
    as (token & u & Htoken & _ & _ & Hexpired).
  exists token. split.
  - simpl. destruct resp as [code [| | | | |d|]]; try done.
  - apply Hexpired; [lia|reflexivity].
Defined.

(** The service runs already: nothing is launched. *)
Lemma pair_check_launch_witness :
  let os := {| exe_exists := true;
               process_names := [None; Some "explorer.exe"; Some "SyncService.exe"];
               popen := Raised (Exn OtherException "must not be called") |} in
  let req := post (Json (PDict [("password", PStr "IMC-MOBILE")])) in
  running os /\
  pair_check ∅ os req =
    no_db (Returned (JsonResponse
      [("status", PStr "success");
       ("message", PStr "SyncService already running");
       ("pair_successful", PBool true)] 200)).
Proof.
  intros os req.
  assert (Hrun : running os).
  { exists "SyncService.exe", "", "". split; [|reflexivity].
    apply list_elem_of_In. right. right. by left. }
  split; [exact Hrun|].
  assert (Hpw : assoc "password" [("password", PStr "IMC-MOBILE")] =
                Some (PStr (PAIR_PASSWORD ∅))) by (by vm_compute).
  destruct (pair_check_launch ∅ os req [("password", PStr "IMC-MOBILE")]
              eq_refl eq_refl Hpw) as (_ & Hrunning & _).
  exact (Hrunning eq_refl Hrun os eq_refl eq_refl).
Defined.

(** An empty body is turned down like a wrong password. *)
Lemma pair_check_without_password_witness :
  let os := {| exe_exists := true; process_names := []; popen := Returned () |} in
  pair_check ∅ os (post EmptyBody) = no_db (Returned (detail "Invalid password" 401)) /\
  pair_check {[ "PAIR_PASSWORD" := "" ]} os (post EmptyBody) =
    no_db (Returned (detail "Invalid password" 401)) /\
  pair_check ∅ os (post (Json (PList []))) =
    no_db (Raised (Exn AttributeError "'list' object has no attribute 'get'")).
Proof.
  intros os. split; [|split].
  - destruct (pair_check_without_password ∅ os (post EmptyBody) eq_refl)
      as (_ & Hempty & _).
    exact (Hempty eq_refl).
  - destruct (pair_check_without_password {[ "PAIR_PASSWORD" := "" ]} os
                (post EmptyBody) eq_refl) as (_ & Hempty & _).
    exact (Hempty eq_refl).
  - destruct (pair_check_without_password ∅ os (post (Json (PList []))) eq_refl)
      as (_ & _ & _ & Hother).
    apply (Hother (PList []) eq_refl). by intros items.
Defined.

(** A host without the driver. *)
Definition no_driver : driver :=
  {| SQLANYDB_AVAILABLE := false; sqlanydb_connect := fun _ _ _ => Returned () |}.

Lemma driver_missing_witness :
  let db := database_of no_driver [] ∅ (fun _ _ => Returned []) in
  get_items ∅ 2000 db (get (Some ("Bearer " +:+ alice_token)) []) =
    (Returned (JsonResponse
       [("status", PStr "error");
        ("detail", PStr "sqlanydb module not installed. Install SAP SQL Anywhere client and run: pip install sqlanydb")]
       500),
     [Connected]).
Proof.
  intros db.
  destruct (driver_missing no_driver [] ∅ (fun _ _ => Returned []) 2000 eq_refl)
    as (Hquery & _).
  apply (Hquery Items (get (Some ("Bearer " +:+ alice_token)) []) alice_token "alice");
    [reflexivity | reflexivity | apply alice_token_valid; lia].
Defined.

(** A configuration with a commented DSN and an overlay of its own. *)
Definition pos_config : config_file :=
  ConfigObject [("dsn", PStr "pktc  # the local DSN"); ("env_file", PStr "pos.env");
                ("port", PInt 8080)].

Definition pos_files (name : string) : option string :=
  if String.eqb name "pos.env" then Some "DB_UID = admin" else None.

Example load_config_pos :
  load_config pos_config =
    Returned [("ip", PStr "auto"); ("port", PInt 8080); ("dsn", PStr "pktc");
              ("settings", PStr "django_sync.settings"); ("env_file", PStr "pos.env")].
Proof. reflexivity. Qed.

Example main_environment_pos :
  exists cfg st,
    main_environment pos_config pos_files {[ "PATH" := "/usr/bin" ]} = Returned (cfg, st) /\
    environ st = {[ "PATH" := "/usr/bin"; "DB_DSN" := "pktc"; "DB_UID" := "admin";
                    "DB_PWD" := "(*$^)" ]} /\
    loaded st = {[ "DB_UID" := "admin" ]}.
Proof. eexists _, _. split; [reflexivity|]. by vm_compute. Qed.

(** A [dsn] that is not a string stops the launcher. *)
Example main_environment_numeric_dsn :
  exists ex,
    main_environment (ConfigObject [("dsn", PInt 5)]) (fun _ => None) ∅ = Raised ex.
Proof. by eexists. Qed.

Lemma main_environment_settings_witness :
  exists cfg st d,
    main_environment pos_config pos_files ∅ = Returned (cfg, st) /\
    environ st !! "DB_DSN" = Some d /\
    contains "#" d = false /\ strip d = d.
Proof.
  destruct (main_environment pos_config pos_files ∅) as [[cfg st]|ex] eqn:Hmain;
    [|by vm_compute in Hmain].
  destruct (main_environment_settings pos_config pos_files ∅ cfg st Hmain)
    as (name & st0 & d & _ & _ & _ & Hdsn & _ & Hno & Htrim & _).
  by exists cfg, st, d.
Defined.

Lemma connection_after_main_witness :
  let drv := {| SQLANYDB_AVAILABLE := true;
                sqlanydb_connect := fun dsn uid pwd =>
                  Raised (Exn OtherException "Database server not found") |} in
  exists cfg st d u p,
    main_environment pos_config pos_files ∅ = Returned (cfg, st) /\
    get_connection drv [] (environ st) = sqlanydb_connect drv (PStr d) (PStr u) (PStr p).
Proof.
  intros drv.
  destruct (main_environment pos_config pos_files ∅) as [[cfg st]|ex] eqn:Hmain;
    [|by vm_compute in Hmain].
  destruct (connection_after_main pos_config pos_files ∅ cfg st drv []
              [("dsn", PStr "pktc"); ("db_uid", PStr "dba"); ("db_pwd", PStr "sql")]
              Hmain eq_refl eq_refl) as (d & u & p & _ & _ & _ & Hconn).
  by exists cfg, st, d, u, p.
Defined.

(** The settings as the driver gets them, computed. *)
Example get_connection_pos :
  let echo := {| SQLANYDB_AVAILABLE := true;
                 sqlanydb_connect := fun dsn uid pwd =>
                   match dsn, uid, pwd with
                   | PStr d, PStr u, PStr p => Raised (Exn OtherException (d +:+ "/" +:+ u +:+ "/" +:+ p))
                   | _, _, _ => Returned ()
                   end |} in
  get_connection echo [None; Some (Returned (PDict [("db_uid", PStr "reader")]))]
    {[ "DB_PWD" := "x" ]} = Raised (Exn OtherException "pktc/reader/x").
Proof. reflexivity. Qed.

Lemma outbound_preferred_witness :
  let net := {| outbound := Returned "192.168.1.20";
                host_addresses := Returned ["10.0.0.5"; "192.168.1.20"];
                probe := fun _ _ => Returned () |} in
  select_bind_ip net 8000 = ("192.168.1.20", ["192.168.1.20"]).
Proof.
  intros net. exact (outbound_preferred net 8000 "192.168.1.20" eq_refl eq_refl).
Defined.

Lemma all_rows_or_error_witness :
  let req := get (Some ("Bearer " +:+ alice_token)) [] in
  (exists rows, (get_dine_tables ∅ 2000 store req).1 = Returned (success DineTables rows)) \/
  (exists ex, (get_dine_tables ∅ 2000 store req).1 = Returned (failure ex)).
Proof.
  intros req.
  destruct (all_rows_or_error DineTables ∅ 2000 store req alice_token "alice"
              eq_refl eq_refl (alice_token_valid 2000 ltac:(lia)))
    as [(rows & _ & _ & _ & _ & Hsuccess)|(ex & Herror & _)].
  - left. by exists rows.
  - right. by exists ex.
Defined.

End Cases.
